(** * UBS marketplace: asset resolution, card filtering and card rendering

    A shallow embedding of the logic of [assets.py], [marketplace.py] and
    [helpers.py].  Python values are modelled as follows.

    - [str] is [string]; the model covers the ASCII range, where
      [str.lower] maps [A-Z] to [a-z] and [str.strip] removes the
      characters 9-13 and 28-32.
    - [bytes] is [list byte].
    - A value loaded by [json.load] is a [json]; a JSON object at the top
      of a record is a [gmap string json] (a Python [dict] with [str]
      keys).  JSON numbers are modelled as integers.
    - The web archive is a property list whose entries hold an optional
      URL, MIME type and payload; a file that cannot be opened or parsed
      is [Unreadable].
    - A raised exception is a [Raise e] result; Streamlit output is a log
      of events threaded through the rendering functions.
    - The network, the XML parser and serialiser, the file system, the
      MIME guesser, the SAS token generator and the environment are
      section variables of the functions that use them. *)

From Stdlib Require Import ZArith Ascii String DecimalString DecimalZ.
From Stdlib.Strings Require Import Byte.
From stdpp Require Import base option list strings gmap.

#[local] Arguments String.append : simpl nomatch.

(** ** Exceptions and results *)

Inductive exn : Type :=
  | KeyError (key : string)
  | AttributeError
  | ParseError
  | TypeError.

Inductive result (A : Type) : Type :=
  | Ok (a : A)
  | Raise (e : exn).
Arguments Ok {A} a.
Arguments Raise {A} e.

(** [result] is the error monad; the [x ← r; k] notation sequences
    statements, and the first [Raise] ends the computation. *)
#[global] Instance result_ret : MRet result := @Ok.
#[global] Instance result_bind : MBind result := fun A B k r =>
  match r with
  | Ok a => k a
  | Raise e => Raise e
  end.

Definition is_Ok {A} (r : result A) : Prop := exists a, r = Ok a.

(** ** Python string primitives *)

Module Py.

Definition is_upper (c : ascii) : bool :=
  let n := nat_of_ascii c in (65 <=? n)%nat && (n <=? 90)%nat.

Definition lower_char (c : ascii) : ascii :=
  if is_upper c then ascii_of_nat (nat_of_ascii c + 32) else c.

(** [s.lower()] *)
Fixpoint lower (s : string) : string :=
  match s with
  | EmptyString => EmptyString
  | String c s' => String (lower_char c) (lower s')
  end.

(** [c.isspace()] on the ASCII range *)
Definition isspace (c : ascii) : bool :=
  let n := nat_of_ascii c in
  ((9 <=? n)%nat && (n <=? 13)%nat) || ((28 <=? n)%nat && (n <=? 32)%nat).

Fixpoint lstrip (s : string) : string :=
  match s with
  | EmptyString => EmptyString
  | String c s' => if isspace c then lstrip s' else s
  end.

Fixpoint rstrip (s : string) : string :=
  match s with
  | EmptyString => EmptyString
  | String c s' =>
      match rstrip s' with
      | EmptyString => if isspace c then EmptyString else String c EmptyString
      | r => String c r
      end
  end.

(** [s.strip()] *)
Definition strip (s : string) : string := rstrip (lstrip s).

(** [s.startswith(p)] *)
Fixpoint startswith (p s : string) : bool :=
  match p, s with
  | EmptyString, _ => true
  | String a p', String b s' => if Ascii.eqb a b then startswith p' s' else false
  | String _ _, EmptyString => false
  end.

(** [needle in hay] for two [str] values *)
Fixpoint contains (needle hay : string) : bool :=
  startswith needle hay ||
  match hay with
  | EmptyString => false
  | String _ hay' => contains needle hay'
  end.

(** Truth value of a [str] *)
Definition truthy (s : string) : bool :=
  match s with EmptyString => false | _ => true end.

(** Truth value of a list *)
Definition nonempty {A} (l : list A) : bool :=
  match l with [] => false | _ => true end.

(** [sep.join(parts)] *)
Fixpoint join (sep : string) (parts : list string) : string :=
  match parts with
  | [] => EmptyString
  | [p] => p
  | p :: rest => p +:+ sep +:+ join sep rest
  end.

(** [a or b] on [Optional[str]] operands *)
Definition or_else (a b : option string) : option string :=
  match a with
  | Some s => if truthy s then a else b
  | None => b
  end.

(** [a or d] where [d] is a [str] literal *)
Definition or_default (a : option string) (d : string) : string :=
  match a with
  | Some s => if truthy s then s else d
  | None => d
  end.

Definition present (a : option string) : bool :=
  match a with Some s => truthy s | None => false end.

End Py.

(** ** JSON values *)

#[local] Set Warnings "-register-all".

Inductive json : Type :=
  | JNull
  | JBool (b : bool)
  | JNum (z : Z)
  | JStr (s : string)
  | JArr (items : list json)
  | JObj (fields : list (string * json)).

(** A catalog record: the [dict] that [json.load] builds for one object. *)
Abbreviation card := (gmap string json).

(** Truth value of a JSON-loaded Python value. *)
Definition json_truthy (v : json) : bool :=
  match v with
  | JNull => false
  | JBool b => b
  | JNum z => negb (z =? 0)%Z
  | JStr s => Py.truthy s
  | JArr l => Py.nonempty l
  | JObj l => Py.nonempty l
  end.

(** [v in sel] where [sel] is a list of [str]: element comparison is [==],
    and a non-string JSON value never equals a string. *)
Definition py_in (v : json) (sel : list string) : bool :=
  match v with
  | JStr s => bool_decide (s ∈ sel)
  | _ => false
  end.

(** [app[key]] *)
Definition subscript (app : card) (key : string) : result json :=
  match app !! key with
  | Some v => Ok v
  | None => Raise (KeyError key)
  end.

(** [v.lower()]: only [str] has the method. *)
Definition str_lower (v : json) : result string :=
  match v with
  | JStr s => Ok (Py.lower s)
  | _ => Raise AttributeError
  end.

(** ** The catalog filter ([marketplace.py], the loop building
       [filtered_apps]) *)

(** The widget values read by the loop. *)
Record criteria : Type := Criteria {
  search_query : string;
  selected_ai_types : list string;
  selected_business_lines : list string;
  selected_functions : list string
}.

(** [if sel and app[key] not in sel: continue]; the result says whether
    the [continue] is taken.  [and] short-circuits: the subscript is
    evaluated only for a non-empty selection. *)
Definition rejects_dimension (sel : list string) (key : string) (app : card)
  : result bool :=
  if Py.nonempty sel then
    v ← subscript app key;
    Ok (negb (py_in v sel))
  else Ok false.

(** [if search_query and search_query.lower() not in app["title"].lower():
    continue] *)
Definition rejects_search (q : string) (app : card) : result bool :=
  if Py.truthy q then
    t ← subscript app "title";
    tl ← str_lower t;
    Ok (negb (Py.contains (Py.lower q) tl))
  else Ok false.

(** One iteration of the loop body: [Ok true] when the record reaches
    [filtered_apps.append(app)], [Ok false] when a [continue] is taken. *)
Definition keeps (c : criteria) (app : card) : result bool :=
  r1 ← rejects_search (search_query c) app;
  if (r1 : bool) then Ok false else
  r2 ← rejects_dimension (selected_ai_types c) "ai_type" app;
  if (r2 : bool) then Ok false else
  r3 ← rejects_dimension (selected_business_lines c) "business_line" app;
  if (r3 : bool) then Ok false else
  r4 ← rejects_dimension (selected_functions c) "function" app;
  if (r4 : bool) then Ok false else
  Ok true.

(** The [for] loop, with the list under construction as accumulator. *)
Fixpoint filter_loop (c : criteria) (app_cards : list card) (acc : list card)
  : result (list card) :=
  match app_cards with
  | [] => Ok acc
  | app :: rest =>
      k ← keeps c app;
      filter_loop c rest (if (k : bool) then acc ++ [app] else acc)
  end.

Definition filtered_apps (c : criteria) (app_cards : list card)
  : result (list card) :=
  filter_loop c app_cards [].

(** ** Base64 and data URIs ([assets.py]) *)

Definition b64_alphabet : string :=
  "ABCDEFGHIJKLMNOPQRSTUVWXYZabcdefghijklmnopqrstuvwxyz0123456789+/".

Definition b64_char (n : N) : ascii :=
  match String.get (N.to_nat n) b64_alphabet with
  | Some c => c
  | None => "="%char
  end.

(** [base64.b64encode(data).decode()] *)
Fixpoint b64encode (data : list byte) : string :=
  match data with
  | [] => EmptyString
  | [a] =>
      let x := Byte.to_N a in
      String (b64_char (N.shiftr x 2))
        (String (b64_char (N.shiftl (N.land x 3) 4)) "==")
  | [a; b] =>
      let x := Byte.to_N a in
      let y := Byte.to_N b in
      String (b64_char (N.shiftr x 2))
        (String (b64_char (N.lor (N.shiftl (N.land x 3) 4) (N.shiftr y 4)))
           (String (b64_char (N.shiftl (N.land y 15) 2)) "="))
  | a :: b :: c :: rest =>
      let x := Byte.to_N a in
      let y := Byte.to_N b in
      let z := Byte.to_N c in
      String (b64_char (N.shiftr x 2))
        (String (b64_char (N.lor (N.shiftl (N.land x 3) 4) (N.shiftr y 4)))
           (String (b64_char (N.lor (N.shiftl (N.land y 15) 2) (N.shiftr z 6)))
              (String (b64_char (N.land z 63)) (b64encode rest))))
  end.

(** [s.encode()] on the ASCII range *)
Definition str_encode (s : string) : list byte := list_byte_of_string s.

Definition _b64_uri (data : list byte) (mime : string) : string :=
  "data:" +:+ mime +:+ ";base64," +:+ b64encode data.

(** One entry of the archive's [WebSubresources] list.  A key that the
    entry lacks is [None]; the code reads every key through [r.get]. *)
Record resource : Type := Resource {
  WebResourceURL : option string;
  WebResourceMIMEType : option string;
  WebResourceData : option (list byte)
}.

(** What [open(ARCHIVE_PATH)] followed by [plistlib.load] gives: an
    exception (caught by the [except] clause), or the property list, whose
    [WebSubresources] key may be absent. *)
Inductive archive_file : Type :=
  | Unreadable
  | Plist (WebSubresources : option (list resource)).

Definition _data_uri_from_wa (r : resource) (mime_override : option string)
  : string :=
  let mime :=
    Py.or_default mime_override
      (default "application/octet-stream" (WebResourceMIMEType r)) in
  _b64_uri (default [] (WebResourceData r)) mime.

(** The loop condition [all(n.lower() in url for n in needles)] with
    [url = (r.get("WebResourceURL", "") or "").lower()]. *)
Definition url_matches (needles : list string) (r : resource) : bool :=
  let url := Py.lower (Py.or_default (WebResourceURL r) "") in
  forallb (fun n => Py.contains (Py.lower n) url) needles.

(** The [for] loop with its early [return]. *)
Fixpoint scan_subresources (needles : list string) (mime_override : option string)
    (rs : list resource) : option string :=
  match rs with
  | [] => None
  | r :: rest =>
      if url_matches needles r
      then Some (_data_uri_from_wa r mime_override)
      else scan_subresources needles mime_override rest
  end.

Definition _find_first_data_uri (wa_file : archive_file)
    (needles : list string) (mime_override : option string) : option string :=
  match wa_file with
  | Unreadable => None
  | Plist subs => scan_subresources needles mime_override (default [] subs)
  end.

(** ** Module-level assets ([assets.py]) *)

Section Assets.

(** The archive file as every lookup of the import finds it. *)
Variable wa_file : archive_file.

Definition LOGO_URI : string :=
  Py.or_default
    (_find_first_data_uri wa_file ["ubs_"; "logo"; "semibold"; ".svg"] None)
    "https://www.ubs.com/etc/designs/fit/img/UBS_Logo_Semibold.svg".

Definition HERO_URI : string :=
  Py.or_default
    (_find_first_data_uri wa_file ["promotion"; "image-l"; ".jpg"] None)
    "https://www.ubs.com/content/homepage/uk/en/new-promotions/gwr2025/jcr:content/promotion/image-l.3840.jpg/1750249353973.jpg".

Definition FONT_LT : option string :=
  Py.or_else
    (_find_first_data_uri wa_file ["frutiger"; "-lt"; ".woff2"] (Some "font/woff2"))
    (_find_first_data_uri wa_file ["frutiger"; "light"; ".woff2"] (Some "font/woff2")).

Definition FONT_RG : option string :=
  Py.or_else
    (Py.or_else
       (_find_first_data_uri wa_file ["frutiger"; "-rg"; ".woff2"] (Some "font/woff2"))
       (_find_first_data_uri wa_file ["frutiger"; "regular"; ".woff2"] (Some "font/woff2")))
    (_find_first_data_uri wa_file ["frutiger"; "roman"; ".woff2"] (Some "font/woff2")).

Definition FONT_MD : option string :=
  Py.or_else
    (_find_first_data_uri wa_file ["frutiger"; "-md"; ".woff2"] (Some "font/woff2"))
    (_find_first_data_uri wa_file ["frutiger"; "medium"; ".woff2"] (Some "font/woff2")).

Definition UBS_ICONS : option string :=
  _find_first_data_uri wa_file ["ubs-homepagev3-font-icons"; ".woff2"] (Some "font/woff2").

End Assets.

(** ** [fontface_blocks] *)

(** How an f-string renders an [Optional[str]]. *)
Definition fmt (a : option string) : string :=
  match a with Some s => s | None => "None" end.

Definition frutiger_face (weight : string) (src : option string) : string :=
  "@font-face{font-family:'FrutigerforUBSWeb';font-style:normal;font-weight:"
  +:+ weight +:+ ";font-display:swap;src:url(" +:+ fmt src +:+ ") format('woff2');}".

Definition icons_face (src : option string) : string :=
  "@font-face{font-family:'ubs-icons';font-style:normal;font-weight:300;font-display:block;src:url("
  +:+ fmt src +:+ ") format('woff2');}".

(** The list [faces] after the five conditional appends. *)
Definition fontface_faces (font_lt font_rg font_md ubs_icons : option string)
  : list string :=
  let faces : list string := [] in
  let faces :=
    if Py.present font_lt then faces ++ [frutiger_face "300" font_lt] else faces in
  let faces :=
    if Py.present font_rg then faces ++ [frutiger_face "400" font_rg] else faces in
  let faces :=
    if Py.present font_md then faces ++ [frutiger_face "500" font_md] else faces in
  let faces :=
    if Py.present font_lt && negb (Py.present font_rg)
    then faces ++ [frutiger_face "400" font_lt] else faces in
  let faces :=
    if Py.present ubs_icons then faces ++ [icons_face ubs_icons] else faces in
  faces.

Definition newline : string := String "010"%char EmptyString.

Definition fontface_blocks (wa_file : archive_file) : string :=
  Py.join newline
    (fontface_faces (FONT_LT wa_file) (FONT_RG wa_file) (FONT_MD wa_file)
       (UBS_ICONS wa_file)).

(** ** The search icon ([assets.py], module level) *)

(** An [xml.etree.ElementTree.Element]. *)
Inductive element : Type :=
  | Element (tag : string) (attrib : list (string * string))
      (text tail : option string) (children : list element).

Definition tag_of (e : element) : string :=
  match e with Element t _ _ _ _ => t end.

Definition children_of (e : element) : list element :=
  match e with Element _ _ _ _ ch => ch end.

(** [e.iter()]: the element, then its subtree in document order. *)
Fixpoint iter (e : element) : list element :=
  match e with
  | Element _ _ _ _ ch =>
      e :: (fix over (l : list element) : list element :=
              match l with
              | [] => []
              | c :: l' => iter c ++ over l'
              end) ch
  end.

(** The elements a [.//] step visits: everything below the start element,
    the start element itself left out. *)
Definition descendants (e : element) : list element :=
  flat_map iter (children_of e).

(** The tag [svg:path] expands to under [ns]. *)
Definition svg_path_tag : string := "{http://www.w3.org/2000/svg}path".

(** [root.find(".//svg:path", ns)] *)
Definition find_svg_path (root : element) : option element :=
  List.find (fun e => String.eqb (tag_of e) svg_path_tag) (descendants root).

Section RemoteIcons.

(** [requests.get(url).content], the body served for a URL. *)
Variable requests_get : string -> list byte.

(** [ET.fromstring(content.decode("utf-8"))]; a document that does not
    decode or parse raises. *)
Variable fromstring : list byte -> result element.

(** [ET.tostring(e, encoding='unicode')] on an element. *)
Variable tostring : element -> string.

(** [ET.tostring] on the result of [find]: for [None] the serialiser
    calls [None.iter()], which raises. *)
Definition ET_tostring (path_el : option element) : result string :=
  match path_el with
  | Some e => Ok (tostring e)
  | None => Raise AttributeError
  end.

Definition _download_svg_data_uri (url : string) : string :=
  _b64_uri (requests_get url) "image/svg+xml".

Definition CONTACT_ICON_URI : string :=
  _download_svg_data_uri
    "https://www.ubs.com/content/dam/wcms/icons/fixed/header-buttons/Support-contact.svg".

Definition search_defs_url : string :=
  "https://www.ubs.com/etc/designs/fit/includes/shared_assets/img/icons/definitions/searchround.20062023.svg".

Definition search_svg_of (body : string) : string :=
  "<svg xmlns='http://www.w3.org/2000/svg' viewBox='0 0 24 24'>" +:+ body +:+ "</svg>".

Definition SEARCH_ICON_URI : result string :=
  root ← fromstring (requests_get search_defs_url);
  let path_el := find_svg_path root in
  body ← ET_tostring path_el;
  let search_svg := search_svg_of body in
  Ok ("data:image/svg+xml;base64," +:+ b64encode (str_encode search_svg)).

(** The names the module binds once its body has run. *)
Record assets_module : Type := AssetsModule {
  m_CONTACT_ICON_URI : string;
  m_SEARCH_ICON_URI : string;
  m_LOGO_URI : string;
  m_HERO_URI : string;
  m_FONT_LT : option string;
  m_FONT_RG : option string;
  m_FONT_MD : option string;
  m_UBS_ICONS : option string
}.

(** [import assets]: the module body, statement by statement.  An
    exception in any statement leaves the module unimported. *)
Definition import_assets (wa_file : archive_file) : result assets_module :=
  let contact := CONTACT_ICON_URI in
  search ← SEARCH_ICON_URI;
  Ok {| m_CONTACT_ICON_URI := contact;
        m_SEARCH_ICON_URI := search;
        m_LOGO_URI := LOGO_URI wa_file;
        m_HERO_URI := HERO_URI wa_file;
        m_FONT_LT := FONT_LT wa_file;
        m_FONT_RG := FONT_RG wa_file;
        m_FONT_MD := FONT_MD wa_file;
        m_UBS_ICONS := UBS_ICONS wa_file |}.

End RemoteIcons.

(** ** Streamlit output and session state ([helpers.py]) *)

Inductive st_event : Type :=
  | StError (body : string)
  | StWarning (body : string)
  | StMarkdown (body : string).

(** What a script run has changed: the session flag set by
    [inject_app_card_css_once] and the elements written to the page. *)
Record session : Type := Session {
  _app_card_css_done : bool;
  page : list st_event
}.

(** A statement that runs against the session and returns or raises. *)
Definition St (A : Type) : Type := session -> result A * session.

#[global] Instance St_ret : MRet St := fun A a s => (Ok a, s).
#[global] Instance St_bind : MBind St := fun A B k m s =>
  match m s with
  | (Ok a, s') => k a s'
  | (Raise e, s') => (Raise e, s')
  end.

Definition st_write (e : st_event) : St unit :=
  fun s => (Ok tt, {| _app_card_css_done := _app_card_css_done s;
                      page := page s ++ [e] |}).

Definition st_error (body : string) : St unit := st_write (StError body).
Definition st_warning (body : string) : St unit := st_write (StWarning body).
Definition st_markdown (body : string) : St unit := st_write (StMarkdown body).

(** The session after [events] have been written to the page. *)
Definition logged (s : session) (events : list st_event) : session :=
  {| _app_card_css_done := _app_card_css_done s; page := page s ++ events |}.

(** A pure statement inside a rendering function. *)
Definition lift {A} (r : result A) : St A := fun s => (r, s).

(** ** [html.escape] *)

Definition dq : string := String "034"%char EmptyString.

Definition escape_char (c : ascii) : string :=
  if Ascii.eqb c "&" then "&amp;"
  else if Ascii.eqb c "<" then "&lt;"
  else if Ascii.eqb c ">" then "&gt;"
  else if Ascii.eqb c "034" then "&quot;"
  else if Ascii.eqb c "'" then "&#x27;"
  else String c EmptyString.

Fixpoint html_escape (s : string) : string :=
  match s with
  | EmptyString => EmptyString
  | String c s' => escape_char c +:+ html_escape s'
  end.

(** [html.escape(v)] on a JSON-loaded value: the function calls
    [v.replace], which only [str] has. *)
Definition escape_value (v : json) : result string :=
  match v with
  | JStr s => Ok (html_escape s)
  | _ => Raise AttributeError
  end.

(** [(app.get(key) or "").strip()] *)
Definition get_stripped (app : card) (key : string) : result string :=
  match app !! key with
  | None => Ok EmptyString
  | Some v =>
      if json_truthy v then
        match v with
        | JStr s => Ok (Py.strip s)
        | _ => Raise AttributeError
        end
      else Ok EmptyString
  end.

(** [str(int(n))] *)
Definition str_of_int (n : Z) : string := NilEmpty.string_of_int (Z.to_int n).

(** ** Signed URLs and card rendering ([helpers.py]) *)

(** What [generate_blob_sas] does: return a token or raise. *)
Inductive sas_outcome : Type :=
  | SasToken (token : string)
  | SasError (message : string).

Section Helpers.

(** The three environment variables, read once at import. *)
Variables account_name account_key container_name : option string.

(** [generate_blob_sas(account_name, container_name, blob_name,
    account_key, read permission, expiry one hour from now)]. *)
Variable generate_blob_sas : string -> string -> string -> string -> sas_outcome.

(** The file system as [_image_to_data_uri] sees it: the content of a
    path that exists and is a regular file. *)
Variable read_file : string -> option (list byte).

(** [mimetypes.guess_type(p)[0]] *)
Variable guess_type : string -> option string.

(** The style sheet literal of [inject_app_card_css_once]. *)
Variable APP_CARD_CSS : string.

Definition get_signed_url (blob_name : string) : St (option string) :=
  if negb (Py.present account_name) || negb (Py.present account_key)
     || negb (Py.present container_name)
  then
    st_error "❌ Missing environment variables! Please check your container configuration.";;
    mret None
  else
    match generate_blob_sas (fmt account_name) (fmt container_name) blob_name
            (fmt account_key) with
    | SasToken sas_token =>
        mret (Some ("https://" +:+ fmt account_name +:+ ".blob.core.windows.net/"
                    +:+ fmt container_name +:+ "/" +:+ blob_name +:+ "?" +:+ sas_token))
    | SasError e =>
        st_error ("Error generating SAS token: " +:+ e);;
        mret None
    end.

Definition inject_app_card_css_once : St unit :=
  fun s => st_markdown APP_CARD_CSS
             {| _app_card_css_done := true; page := page s |}.

Definition _image_to_data_uri (path : string) : option string :=
  if negb (Py.truthy path) then None else
  let p := Py.strip path in
  if Py.startswith "http://" p || Py.startswith "https://" p || Py.startswith "data:" p
  then Some p
  else
    match read_file p with
    | Some content =>
        let mime := Py.or_default (guess_type p) "image/png" in
        Some ("data:" +:+ mime +:+ ";base64," +:+ b64encode content)
    | None => None
    end.

(** [_image_to_data_uri(app.get("image", ""))]: a false value returns
    [None] at the first test; a true value that is not a [str] fails at
    [path.strip()]. *)
Definition image_of (app : card) : result (option string) :=
  match app !! "image" with
  | None => Ok (_image_to_data_uri EmptyString)
  | Some (JStr s) => Ok (_image_to_data_uri s)
  | Some v => if json_truthy v then Raise AttributeError else Ok None
  end.

Definition chev : string :=
  "<svg class=" +:+ dq +:+ "ubs-chev" +:+ dq +:+ " viewBox=" +:+ dq +:+ "0 0 16 16" +:+ dq +:+ " aria-hidden=" +:+ dq +:+ "true" +:+ dq +:+ " focusable=" +:+ dq +:+ "false" +:+ dq +:+ "><path d=" +:+ dq +:+ "M5 3l5 5-5 5" +:+ dq +:+ "></path></svg>".

Definition open_app_action (app_url : string) : string :=
  "<a href='" +:+ html_escape app_url
  +:+ "' target='_blank' rel='noopener noreferrer' class='ubs-btn-primary'>Open app</a>".

Definition watch_demo_action (demo_url : string) : string :=
  "<a  href='" +:+ html_escape demo_url +:+ "' >Watch demo " +:+ chev +:+ "</a>".

Definition read_docs_action (docs_url : string) : string :=
  "<a  href='" +:+ html_escape docs_url
  +:+ "' target='_blank' rel='noopener noreferrer'>Read docs " +:+ chev +:+ "</a>".

(** The list [actions] after the three conditional appends. *)
Definition build_actions (app_url demo_url docs_url : string) : list string :=
  let actions : list string := [] in
  let actions :=
    if Py.truthy app_url then actions ++ [open_app_action app_url] else actions in
  let actions :=
    if Py.truthy demo_url then actions ++ [watch_demo_action demo_url] else actions in
  let actions :=
    if Py.truthy docs_url then actions ++ [read_docs_action docs_url] else actions in
  actions.

(** The text of the warning shown when no signed URL comes back. *)
Definition demo_warning (demo_url : string) : string :=
  "⚠️ Could not generate signed URL for demo: " +:+ demo_url.

(** The [if demo_url:] block: the value of [demo_url] after it. *)
Definition sign_demo_url (demo_url : string) : St string :=
  if Py.truthy demo_url then
    azure_demo_url ← get_signed_url demo_url;
    if Py.present azure_demo_url then mret (fmt azure_demo_url)
    else
      st_warning (demo_warning demo_url);;
      mret demo_url
  else mret demo_url.

(** The signed-URL capability fails for a blob name: a configuration
    value is missing or empty, or the token generator raises. *)
Definition signing_fails (blob_name : string) : Prop :=
  Py.present account_name = false ∨
  Py.present account_key = false ∨
  Py.present container_name = false ∨
  ∃ e, generate_blob_sas (fmt account_name) (fmt container_name) blob_name
         (fmt account_key) = SasError e.

Definition build_tags (business_line function : string) : list string :=
  let tags_tokens : list string := [] in
  let tags_tokens :=
    if Py.truthy business_line then tags_tokens ++ [business_line] else tags_tokens in
  let tags_tokens :=
    if Py.truthy function then tags_tokens ++ [function] else tags_tokens in
  tags_tokens.

Definition build_tags_html (tags_tokens : list string) : string :=
  if Py.nonempty tags_tokens then
    "<div class='ubs-app-card__tags'>"
    +:+ Py.join EmptyString
          (map (fun t => "<span class='ubs-app-card__tag'>" +:+ html_escape t +:+ "</span>")
             tags_tokens)
    +:+ "</div>"
  else EmptyString.

(** [(app.get("status") or "").strip().lower()] mapped to the label. *)
Definition status_label (status_raw : string) : string :=
  if String.eqb status_raw "beta" || String.eqb status_raw "preview"
  then "Preview" else EmptyString.

Definition variant_class_of (variant : string) : string :=
  if String.eqb variant "row" then "ubs-app-card--row"
  else if String.eqb variant "tile" then "ubs-app-card--tile"
  else if String.eqb variant "feature" then "ubs-app-card--feature"
  else "ubs-app-card--tile".

(** The local variables of [render_app_card] that the page shows. *)
Record card_view : Type := CardView {
  v_title : string;
  v_desc : string;
  v_img : string;
  v_alt : string;
  v_app_url : string;
  v_demo_url : string;
  v_docs_url : string;
  v_tags_tokens : list string;
  v_status : string;
  v_actions : list string;
  v_card_html : string
}.

Definition feature_card_html
    (variant_class clamp_class : string) (top_margin_px : Z)
    (img alt status_html kicker_html title desc tags_html actions_html : string)
  : string :=
  "
    <div class=" +:+ dq +:+ "ubs-app-card " +:+ variant_class +:+ " " +:+ clamp_class +:+ dq +:+ " style=" +:+ dq +:+ "margin-top:" +:+ str_of_int top_margin_px +:+ "px" +:+ dq +:+ ">
      <div class=" +:+ dq +:+ "ubs-app-card__thumbwrap" +:+ dq +:+ ">
        <img src=" +:+ dq +:+ img +:+ dq +:+ " alt=" +:+ dq +:+ alt +:+ dq +:+ " class=" +:+ dq +:+ "ubs-app-card__thumb" +:+ dq +:+ "/>
        " +:+ status_html +:+ "
      </div>
      <div class=" +:+ dq +:+ "ubs-app-card__body" +:+ dq +:+ ">
        " +:+ kicker_html +:+ "
        <h3 class=" +:+ dq +:+ "ubs-app-card__title" +:+ dq +:+ ">" +:+ title +:+ "</h3>
        <p class=" +:+ dq +:+ "ubs-app-card__desc" +:+ dq +:+ ">" +:+ desc +:+ "</p>
        " +:+ tags_html +:+ "
        " +:+ actions_html +:+ "
      </div>
    </div>
    ".

Definition plain_card_html
    (variant_class clamp_class : string) (top_margin_px : Z)
    (img alt status_html title desc tags_html actions_html : string)
  : string :=
  "
<div class=" +:+ dq +:+ "ubs-app-card " +:+ variant_class +:+ " " +:+ clamp_class +:+ dq +:+ " style=" +:+ dq +:+ "margin-top:" +:+ str_of_int top_margin_px +:+ "px" +:+ dq +:+ ">
  <div class=" +:+ dq +:+ "ubs-app-card__thumbwrap" +:+ dq +:+ ">
    <img src=" +:+ dq +:+ img +:+ dq +:+ " alt=" +:+ dq +:+ alt +:+ dq +:+ " class=" +:+ dq +:+ "ubs-app-card__thumb" +:+ dq +:+ "/>
    " +:+ status_html +:+ "
  </div>
  <div class=" +:+ dq +:+ "ubs-app-card__body" +:+ dq +:+ ">
    <h3 class=" +:+ dq +:+ "ubs-app-card__title" +:+ dq +:+ ">" +:+ title +:+ "</h3>
    <p class=" +:+ dq +:+ "ubs-app-card__desc" +:+ dq +:+ ">" +:+ desc +:+ "</p>
    " +:+ tags_html +:+ "
    " +:+ actions_html +:+ "
  </div>
</div>
".

(** The body of [render_app_card] up to the final [st.markdown]. *)
Definition card_locals (app : card) (variant : string) (clamp_width : bool)
    (top_margin_px : Z) : St card_view :=
  inject_app_card_css_once;;
  title ← lift (escape_value (default (JStr "Untitled application") (app !! "title")));
  desc ← lift (escape_value (default (JStr EmptyString) (app !! "description")));
  img_opt ← lift (image_of app);
  let img := Py.or_default img_opt EmptyString in
  alt ← lift (escape_value (default (JStr title) (app !! "alt")));
  app_url ← lift (get_stripped app "app_url");
  demo_url ← lift (get_stripped app "demo_url");
  docs_url ← lift (get_stripped app "docs_url");
  demo_url ← sign_demo_url demo_url;
  business_line ← lift (get_stripped app "business_line");
  function ← lift (get_stripped app "function");
  let tags_tokens := build_tags business_line function in
  let tags_html := build_tags_html tags_tokens in
  status_stripped ← lift (get_stripped app "status");
  let status_raw := Py.lower status_stripped in
  let status := status_label status_raw in
  let status_html :=
    if Py.truthy status
    then "<span class='ubs-app-card__status'>" +:+ status +:+ "</span>"
    else EmptyString in
  let actions := build_actions app_url demo_url docs_url in
  let actions_html :=
    if Py.nonempty actions
    then "<div class='ubs-app-card__actions'>" +:+ Py.join EmptyString actions +:+ "</div>"
    else EmptyString in
  let variant_class := variant_class_of variant in
  let clamp_class :=
    if clamp_width && String.eqb variant "row" then "ubs-app-card--clamp"
    else EmptyString in
  let is_feature_compact := String.eqb variant "feature" in
  let kicker_html :=
    if is_feature_compact
    then "<div class='ubs-feature-kicker'>Featured application</div>"
    else EmptyString in
  let card_html :=
    if is_feature_compact
    then feature_card_html variant_class clamp_class top_margin_px
           img alt status_html kicker_html title desc tags_html actions_html
    else plain_card_html variant_class clamp_class top_margin_px
           img alt status_html title desc tags_html actions_html in
  mret {| v_title := title; v_desc := desc; v_img := img; v_alt := alt;
          v_app_url := app_url; v_demo_url := demo_url; v_docs_url := docs_url;
          v_tags_tokens := tags_tokens; v_status := status;
          v_actions := actions; v_card_html := card_html |}.

Definition render_app_card (app : card) (variant : string) (clamp_width : bool)
    (top_margin_px : Z) : St unit :=
  v ← card_locals app variant clamp_width top_margin_px;
  st_markdown (v_card_html v).

End Helpers.


(** * Specification-side definitions *)

(** [needle] occurs in [s] as a contiguous substring. *)
Definition infix (needle s : string) : Prop :=
  exists pre post, s = pre +:+ needle +:+ post.

(** The title contains the search text, letter case ignored. *)
Definition contains_ci (title searchText : string) : Prop :=
  infix (Py.lower searchText) (Py.lower title).

(** The filter rule in the words of the specification: each criterion is
    either unset or met by the record's field. *)
Definition passes (c : criteria) (app : card) : Prop :=
  (search_query c = EmptyString ∨
   ∃ t, app !! "title" = Some (JStr t) ∧ contains_ci t (search_query c)) ∧
  (selected_ai_types c = [] ∨
   ∃ s, app !! "ai_type" = Some (JStr s) ∧ s ∈ selected_ai_types c) ∧
  (selected_business_lines c = [] ∨
   ∃ s, app !! "business_line" = Some (JStr s) ∧ s ∈ selected_business_lines c) ∧
  (selected_functions c = [] ∨
   ∃ s, app !! "function" = Some (JStr s) ∧ s ∈ selected_functions c).

(** The same rule as a decision procedure. *)
Definition title_matches (q : string) (app : card) : bool :=
  match app !! "title" with
  | Some (JStr t) => Py.contains (Py.lower q) (Py.lower t)
  | _ => false
  end.

Definition member (key : string) (sel : list string) (app : card) : bool :=
  match app !! key with
  | Some v => py_in v sel
  | None => false
  end.

Definition passesb (c : criteria) (app : card) : bool :=
  (negb (Py.truthy (search_query c)) || title_matches (search_query c) app)
  && (negb (Py.nonempty (selected_ai_types c))
      || member "ai_type" (selected_ai_types c) app)
  && (negb (Py.nonempty (selected_business_lines c))
      || member "business_line" (selected_business_lines c) app)
  && (negb (Py.nonempty (selected_functions c))
      || member "function" (selected_functions c) app).

(** A record that carries every field the filter may read, the title
    being a string. *)
Definition complete_card (app : card) : Prop :=
  (∃ t, app !! "title" = Some (JStr t)) ∧
  is_Some (app !! "ai_type") ∧
  is_Some (app !! "business_line") ∧
  is_Some (app !! "function").

(** A record all of whose values are strings. *)
Definition strings_only (app : card) : Prop :=
  ∀ key v, app !! key = Some v → ∃ s, v = JStr s.

(** The string under a key, or [dflt] when the key is absent. *)
Definition str_field (app : card) (key dflt : string) : string :=
  match app !! key with
  | Some (JStr s) => s
  | _ => dflt
  end.

(** The three categorical dimensions, in the order the loop tests them. *)
Inductive dimension : Type := AiType | BusinessLine | FunctionDim.

Definition key_of (d : dimension) : string :=
  match d with
  | AiType => "ai_type"
  | BusinessLine => "business_line"
  | FunctionDim => "function"
  end.

Definition selection (c : criteria) (d : dimension) : list string :=
  match d with
  | AiType => selected_ai_types c
  | BusinessLine => selected_business_lines c
  | FunctionDim => selected_functions c
  end.

(** The criteria restricted to the tests the loop runs before it reaches
    dimension [d]. *)
Definition before (d : dimension) (c : criteria) : criteria :=
  match d with
  | AiType => Criteria (search_query c) [] [] []
  | BusinessLine => Criteria (search_query c) (selected_ai_types c) [] []
  | FunctionDim =>
      Criteria (search_query c) (selected_ai_types c) (selected_business_lines c) []
  end.

(** * Sample data *)

Definition risk_summarizer : card :=
  {[ "title" := JStr "Risk Summarizer"; "ai_type" := JStr "NLP";
     "business_line" := JStr "Investment Bank"; "function" := JStr "Research" ]}.

Definition kyc_assistant : card :=
  {[ "title" := JStr "KYC Assistant"; "ai_type" := JStr "Predictive Analytics";
     "business_line" := JStr "Wealth Management"; "function" := JStr "KYC & Risk" ]}.

(** A record with no [business_line] key. *)
Definition unassigned_card : card :=
  {[ "title" := JStr "Entity Extractor"; "ai_type" := JStr "NLP";
     "function" := JStr "Research" ]}.

(** A record with no [title] key. *)
Definition untitled_card : card :=
  {[ "ai_type" := JStr "NLP"; "business_line" := JStr "Investment Bank";
     "function" := JStr "Research" ]}.

(** A record whose only link is a demo blob name. *)
Definition demo_only_card : card :=
  {[ "title" := JStr "Client Signals"; "app_url" := JStr EmptyString;
     "docs_url" := JStr EmptyString; "demo_url" := JStr "demos/client-signals.mp4" ]}.

Definition no_criteria : criteria := Criteria EmptyString [] [] [].

(** A signed-URL capability that is configured nowhere and whose token
    generator always raises; a file system with no files. *)
Definition failing_sas : string -> string -> string -> string -> sas_outcome :=
  fun _ _ _ _ => SasError "service unavailable".

Definition no_files : string -> option (list byte) := fun _ => None.

Definition no_mime_guess : string -> option string := fun _ => None.

Definition fresh_session : session := Session false [].

(** * Specification-side definitions for the asset resolver *)

(** The identifying URL of a sub-resource. *)
Definition resource_url (r : resource) : string :=
  default EmptyString (WebResourceURL r).

(** Every token occurs in the URL, letter case ignored. *)
Definition token_match (needles : list string) (r : resource) : Prop :=
  ∀ n, n ∈ needles → infix (Py.lower n) (Py.lower (resource_url r)).

(** The archive offers nothing for a token list: it cannot be read, or none
    of its sub-resources matches. *)
Definition no_match (wa_file : archive_file) (needles : list string) : Prop :=
  match wa_file with
  | Unreadable => True
  | Plist subs => Forall (λ r, ¬ token_match needles r) (default [] subs)
  end.

(** A declaration that is emitted only when its condition holds. *)
Definition optional_face (shown : bool) (face : string) : list string :=
  if shown then [face] else [].

(** The order of the font-face declarations in the words of the
    specification. *)
Definition expected_faces (font_lt font_rg font_md ubs_icons : option string)
  : list string :=
  optional_face (Py.present font_lt) (frutiger_face "300" font_lt)
  ++ optional_face (Py.present font_rg) (frutiger_face "400" font_rg)
  ++ optional_face (Py.present font_md) (frutiger_face "500" font_md)
  ++ optional_face (Py.present font_lt && negb (Py.present font_rg))
       (frutiger_face "400" font_lt)
  ++ optional_face (Py.present ubs_icons) (icons_face ubs_icons).

(** Sample archive entries. *)
Definition logo_resource : resource :=
  Resource (Some "https://www.ubs.com/etc/designs/fit/img/UBS_Logo_Semibold.svg")
    (Some "image/svg+xml") (Some (str_encode "<svg/>")).

Definition light_font_resource : resource :=
  Resource (Some "https://www.ubs.com/fonts/Frutiger-Lt.woff2")
    (Some "application/octet-stream") (Some (str_encode "wOF2")).

Definition second_logo_resource : resource :=
  Resource (Some "https://cdn.example/UBS_LOGO_semibold.SVG")
    (Some "image/svg+xml") (Some (str_encode "<svg>2</svg>")).

(** Sample icon-definition documents: one with two paths below a group,
    one with no path at all. *)
Definition first_path : element :=
  Element svg_path_tag [("d", "M1 1")] None None [].

Definition second_path : element :=
  Element svg_path_tag [("d", "M2 2")] None None [].

Definition defs_document : element :=
  Element "{http://www.w3.org/2000/svg}svg" [] None None
    [Element "{http://www.w3.org/2000/svg}g" [] None None [first_path];
     second_path].

Definition pathless_document : element :=
  Element "{http://www.w3.org/2000/svg}svg" [] None None
    [Element "{http://www.w3.org/2000/svg}g" [] None None []].

(** A serialiser that prints the tag and the [d] attribute only. *)
Definition sample_tostring (e : element) : string :=
  match e with
  | Element t ((_, d) :: _) _ _ _ => "<path d='" +:+ d +:+ "'/>"
  | Element t [] _ _ _ => "<" +:+ t +:+ "/>"
  end.

(** A network that serves an empty body, and a parser that yields a given
    document. *)
Definition served_nothing : string -> list byte := fun _ => [].

Definition parses_to (root : element) : list byte -> result element :=
  fun _ => Ok root.

(** A base64 digit is a letter of the alphabet or the padding sign. *)
Definition b64_digit (c : ascii) : Prop :=
  c ∈ list_ascii_of_string b64_alphabet ∨ c = "="%char.

(** * Specification-side definitions for card rendering *)

(** An image reference a browser can load as it stands. *)
Definition absolute_or_data (u : string) : bool :=
  Py.startswith "http://" u || Py.startswith "https://" u
  || Py.startswith "data:" u.

(** The characters [html.escape] replaces, the ampersand apart. *)
Definition markup_char (c : ascii) : bool :=
  Ascii.eqb c "<" || Ascii.eqb c ">" || Ascii.eqb c "034" || Ascii.eqb c "'".

(** An action that is shown only for a non-empty link. *)
Definition optional_action (link : string) (action : string) : list string :=
  if Py.truthy link then [action] else [].

(** A statement that only appends [events] to the page and gives [r],
    whatever the session it starts from. *)
Definition writes_only {A} (m : St A) (r : result A) (events : list st_event)
  : Prop :=
  ∀ s, m s = (r, logged s events).

(** A token generator that always answers, and a fully described card. *)
Definition working_sas : string -> string -> string -> string -> sas_outcome :=
  fun _ _ _ _ => SasToken "sig=abc".

Definition copilot_card : card :=
  {[ "title" := JStr "Portfolio Copilot";
     "business_line" := JStr " Wealth Management ";
     "function" := JStr EmptyString;
     "status" := JStr " Beta ";
     "image" := JStr " https://cdn.example/copilot.png";
     "app_url" := JStr "https://apps.example/copilot";
     "demo_url" := JStr "demos/copilot.mp4";
     "docs_url" := JStr "https://docs.example/copilot" ]}.

(** * Layout helpers ([helpers.py]) *)

(** [_css_inline]: a style dictionary, in insertion order, as declarations. *)
Definition _css_inline (style : option (list (string * string))) : string :=
  match style with
  | None => EmptyString
  | Some [] => EmptyString
  | Some items =>
      Py.join "; " (map (fun kv => fst kv +:+ ":" +:+ snd kv) items)
  end.

(** [section_spacer] *)
Definition section_spacer (size : option string) : St unit :=
  let style :=
    if Py.present size then "--spacer-size:" +:+ fmt size +:+ ";"
    else EmptyString in
  st_markdown ("<div class='full-bleed section-spacer' style='" +:+ style
               +:+ "' aria-hidden='true'></div>").

(** What a script writes when containers are in play: a keyed container
    is opened, an element is written into the innermost open container, a
    container is closed. *)
Inductive layout_event : Type :=
  | OpenContainer (key : string)
  | Shown (e : st_event)
  | CloseContainer.

(** The session counter [_ubs_seq] (absent until the first container) and
    the page so far. *)
Record layout : Type := Layout {
  _ubs_seq : option Z;
  frames : list layout_event
}.

Definition lay (e : layout_event) (l : layout) : layout :=
  {| _ubs_seq := _ubs_seq l; frames := frames l ++ [e] |}.

(** [_inject] *)
Definition _inject (css : string) (l : layout) : layout :=
  lay (Shown (StMarkdown ("<style>" +:+ css +:+ "</style>"))) l.

Definition band_default_css (band_key band_bg : string) : string :=
  "
.st-key-" +:+ band_key +:+ "{ background:" +:+ band_bg +:+ "; padding:32px 0; }
.st-key-" +:+ band_key +:+ " [data-testid*=" +:+ dq +:+ "lement-container" +:+ dq +:+ "],
.st-key-" +:+ band_key +:+ " [data-testid=" +:+ dq +:+ "stVerticalBlock" +:+ dq +:+ "]{ padding-left:0 !important; padding-right:0 !important; gap:0 !important; }
".

Definition rail_default_css (rail_key : string) : string :=
  "
.st-key-" +:+ rail_key +:+ "{ max-width:var(--grid-container-width); margin:0 auto; padding:0 var(--grid-container-spacing); box-sizing:content-box; }
.st-key-" +:+ rail_key +:+ " > [data-testid=" +:+ dq +:+ "stVerticalBlock" +:+ dq +:+ "]{ padding:0 !important; }
.st-key-" +:+ rail_key +:+ " [data-testid*=" +:+ dq +:+ "lement-container" +:+ dq +:+ "]{ padding-left:0 !important; padding-right:0 !important; }
.st-key-" +:+ rail_key +:+ " [data-testid=" +:+ dq +:+ "stChatInput" +:+ dq +:+ "],
.st-key-" +:+ rail_key +:+ " [data-testid=" +:+ dq +:+ "stTabs" +:+ dq +:+ "]{ max-width:none !important; width:100% !important; margin:0 !important; padding:0 !important; }
".

(** Truth value of a style dictionary. *)
Definition style_given (style : option (list (string * string))) : bool :=
  match style with
  | Some (_ :: _) => true
  | _ => false
  end.

(** The arguments of [ubs_container]. *)
Record container_args : Type := ContainerArgs {
  arg_name : option string;
  add_default_css : bool;
  background : option string;
  band_style : option (list (string * string));
  rail_style : option (list (string * string))
}.

(** The counter after the two statements that initialise and bump it. *)
Definition next_seq (l : layout) : Z :=
  match _ubs_seq l with
  | None => 0 + 1
  | Some n => n + 1
  end.

(** The band and rail keys of a call. *)
Definition container_keys (a : container_args) (l : layout) : string * string :=
  let seq := next_seq l in
  let base := Py.or_default (arg_name a) ("ubs_" +:+ str_of_int seq) in
  (base +:+ "_band", base +:+ "_rail").

(** The background colour of the band. *)
Definition band_background (a : container_args) : string :=
  let bg_choice := Py.lower (Py.strip (Py.or_default (background a) "grey")) in
  if String.eqb bg_choice "grey" then "var(--ubs-gray-light)" else "#ffffff".

(** [ubs_container] up to its [yield]: the counter is bumped, the band is
    opened and styled, the rail is opened and styled inside it. *)
Definition ubs_container_enter (a : container_args) (l : layout) : layout :=
  let seq := next_seq l in
  let l := {| _ubs_seq := Some seq; frames := frames l |} in
  let base := Py.or_default (arg_name a) ("ubs_" +:+ str_of_int seq) in
  let band_key := base +:+ "_band" in
  let rail_key := base +:+ "_rail" in
  let band_bg := band_background a in
  let l := lay (OpenContainer band_key) l in
  let l := if add_default_css a then _inject (band_default_css band_key band_bg) l else l in
  let l :=
    if style_given (band_style a)
    then _inject (".st-key-" +:+ band_key +:+ "{" +:+ _css_inline (band_style a) +:+ "}") l
    else l in
  let l := lay (OpenContainer rail_key) l in
  let l := if add_default_css a then _inject (rail_default_css rail_key) l else l in
  let l :=
    if style_given (rail_style a)
    then _inject (".st-key-" +:+ rail_key +:+ "{" +:+ _css_inline (rail_style a) +:+ "}") l
    else l in
  l.

(** [with ubs_container(...): body]: after the body both containers are
    left, the rail first. *)
Definition with_ubs_container (a : container_args) (body : layout -> layout)
    (l : layout) : layout :=
  lay CloseContainer (lay CloseContainer (body (ubs_container_enter a l))).

(** The default arguments: no name, default style sheet, grey band. *)
Definition default_container : container_args :=
  ContainerArgs None true (Some "grey") None None.

(** The depth of open containers after a run of events, or [None] when a
    container is closed that was never opened. *)
Fixpoint depth_after (events : list layout_event) (depth : nat) : option nat :=
  match events with
  | [] => Some depth
  | OpenContainer _ :: rest => depth_after rest (S depth)
  | Shown _ :: rest => depth_after rest depth
  | CloseContainer :: rest =>
      match depth with
      | O => None
      | S d => depth_after rest d
      end
  end.

(** * The card grid ([marketplace.py], the display loop) *)

(** The session flag and the content of the three columns. *)
Record grid : Type := Grid {
  grid_css_done : bool;
  grid_columns : list (list st_event)
}.

(** [with cols[j]: m]: what [m] writes goes to column [j]. *)
Definition in_column (j : nat) (m : St unit) (g : grid) : result unit * grid :=
  match m (Session (grid_css_done g) (default [] (grid_columns g !! j))) with
  | (r, s') => (r, Grid (_app_card_css_done s') (<[j:=page s']> (grid_columns g)))
  end.

(** The loop [for i, a in enumerate(filtered_apps)], from index [i] on,
    with the rendering of one card as parameter. *)
Fixpoint display_loop (render : card -> St unit) (i : nat) (apps : list card)
    (g : grid) : result unit * grid :=
  match apps with
  | [] => (Ok tt, g)
  | a :: rest =>
      match in_column (i mod 3) (render a) g with
      | (Ok _, g') => display_loop render (S i) rest g'
      | (Raise e, g') => (Raise e, g')
      end
  end.

(** The elements at positions [j], [j + 3], [j + 6], ... of a list. *)
Fixpoint every_third {A} (j : nat) (l : list A) : list A :=
  match l with
  | [] => []
  | x :: rest =>
      match j with
      | O => x :: every_third 2 rest
      | S j' => every_third j' rest
      end
  end.

Section GridDefinitions.

Variables account_name account_key container_name : option string.
Variable generate_blob_sas : string -> string -> string -> string -> sas_outcome.
Variable read_file : string -> option (list byte).
Variable guess_type : string -> option string.
Variable APP_CARD_CSS : string.

(** [render_app_card(a, variant="tile", top_margin_px=16)], the call of
    the display loop. *)
Definition render_tile (a : card) : St unit :=
  render_app_card account_name account_key container_name generate_blob_sas
    read_file guess_type APP_CARD_CSS a "tile" true 16.

(** The display loop over [filtered_apps], the three columns being empty
    before it. *)
Definition display_cards (filtered : list card) (css_done : bool)
  : result unit * grid :=
  display_loop render_tile 0 filtered (Grid css_done [[]; []; []]).

(** What rendering one card gives and writes, seen from an empty page. *)
Definition card_result (a : card) : result unit :=
  fst (render_tile a (Session false [])).

Definition card_events (a : card) : list st_event :=
  page (snd (render_tile a (Session false []))).

End GridDefinitions.

(** * Strings *)

Lemma truthy_false s : Py.truthy s = false ↔ s = EmptyString.
Proof. destruct s; simpl; split; congruence. Qed.

Lemma nonempty_false {A} (l : list A) : Py.nonempty l = false ↔ l = [].
Proof. destruct l; simpl; split; congruence. Qed.

Lemma startswith_spec p s :
  Py.startswith p s = true ↔ ∃ post, s = p +:+ post.
Proof.
  revert s. induction p as [|a p IH]; intros s; simpl.
  - split; [intros _; by exists s | done].
  - destruct s as [|b s].
    + split; [done | intros [post H]; discriminate].
    + destruct (Ascii.eqb a b) eqn:E.
      * apply Ascii.eqb_eq in E as ->. rewrite IH.
        split; intros [post H]; exists post; simpl in *; congruence.
      * apply Ascii.eqb_neq in E.
        split; [done | intros [post H]; simpl in H; congruence].
Qed.

Lemma contains_spec needle hay :
  Py.contains needle hay = true ↔ infix needle hay.
Proof.
  unfold infix. induction hay as [|c hay IH]; simpl.
  - rewrite orb_false_r, startswith_spec. split.
    + intros [post H]. by exists EmptyString, post.
    + intros [[|? pre] [post H]]; [by exists post | discriminate].
  - rewrite orb_true_iff, IH, startswith_spec. split.
    + intros [[post H] | (pre & post & H)].
      * by exists EmptyString, post.
      * exists (String c pre), post. simpl. by rewrite H.
    + intros [[|c' pre] [post H]].
      * left. by exists post.
      * right. exists pre, post. simpl in H. congruence.
Qed.

Lemma infix_here needle post : infix needle (needle +:+ post).
Proof. by exists EmptyString, post. Qed.

Lemma infix_skip needle a s : infix needle s → infix needle (a +:+ s).
Proof.
  intros (pre & post & ->). exists (a +:+ pre), post.
  induction a as [|c a IH]; simpl; [done | by rewrite IH].
Qed.

(** * The catalog filter *)

Lemma rejects_search_member q app b :
  rejects_search q app = Ok b →
  negb b = negb (Py.truthy q) || title_matches q app.
Proof.
  unfold rejects_search, title_matches, subscript, str_lower.
  destruct (Py.truthy q); simpl; [|by intros [= <-]].
  destruct (app !! "title") as [[]|]; simpl; try done.
  intros [= <-]. apply negb_involutive.
Qed.

Lemma rejects_dimension_member sel key app b :
  rejects_dimension sel key app = Ok b →
  negb b = negb (Py.nonempty sel) || member key sel app.
Proof.
  unfold rejects_dimension, member, subscript.
  destruct (Py.nonempty sel); simpl; [|by intros [= <-]].
  destruct (app !! key); simpl; [|done].
  intros [= <-]. apply negb_involutive.
Qed.

(** Whenever one iteration completes, its verdict is the decision
    procedure's. *)
Lemma keeps_passesb c app b : keeps c app = Ok b → b = passesb c app.
Proof.
  unfold keeps, passesb. intros H.
  destruct (rejects_search _ _) as [r1|] eqn:E1; simpl in H; [|done].
  apply rejects_search_member in E1 as <-.
  destruct r1; simpl; [by simplify_eq|].
  destruct (rejects_dimension _ "ai_type" _) as [r2|] eqn:E2; simpl in H; [|done].
  apply rejects_dimension_member in E2 as <-.
  destruct r2; simpl; [by simplify_eq|].
  destruct (rejects_dimension _ "business_line" _) as [r3|] eqn:E3; simpl in H; [|done].
  apply rejects_dimension_member in E3 as <-.
  destruct r3; simpl; [by simplify_eq|].
  destruct (rejects_dimension _ "function" _) as [r4|] eqn:E4; simpl in H; [|done].
  apply rejects_dimension_member in E4 as <-.
  destruct r4; simpl; by simplify_eq.
Qed.

Lemma rejects_search_complete q app :
  (∃ t, app !! "title" = Some (JStr t)) → is_Ok (rejects_search q app).
Proof.
  intros [t Ht]. unfold rejects_search, subscript.
  destruct (Py.truthy q); [|by eexists].
  rewrite Ht. simpl. by eexists.
Qed.

Lemma rejects_dimension_complete sel key app :
  is_Some (app !! key) → is_Ok (rejects_dimension sel key app).
Proof.
  intros [v Hv]. unfold rejects_dimension, subscript.
  destruct (Py.nonempty sel); [|by eexists].
  rewrite Hv. simpl. by eexists.
Qed.

Lemma keeps_complete c app : complete_card app → is_Ok (keeps c app).
Proof.
  intros (Ht & Ha & Hb & Hf). unfold keeps.
  destruct (rejects_search_complete (search_query c) app Ht) as [r1 ->]. simpl.
  destruct r1; [by eexists|].
  destruct (rejects_dimension_complete (selected_ai_types c) _ app Ha) as [r2 ->].
  simpl. destruct r2; [by eexists|].
  destruct (rejects_dimension_complete (selected_business_lines c) _ app Hb) as [r3 ->].
  simpl. destruct r3; [by eexists|].
  destruct (rejects_dimension_complete (selected_functions c) _ app Hf) as [r4 ->].
  simpl. destruct r4; by eexists.
Qed.

(** The loop appends to its accumulator exactly the records the decision
    procedure accepts, in the order it meets them. *)
Lemma filter_loop_filter c app_cards acc out :
  filter_loop c app_cards acc = Ok out →
  out = acc ++ filter (λ app, passesb c app) app_cards.
Proof.
  revert acc. induction app_cards as [|app rest IH]; intros acc; simpl.
  - intros [= <-]. by rewrite app_nil_r.
  - destruct (keeps c app) as [k|] eqn:Ek; simpl; [|done].
    apply keeps_passesb in Ek as ->. intros H%IH. rewrite filter_cons.
    destruct (passesb c app); simpl in *; [|done].
    by rewrite <- app_assoc in H.
Qed.

Lemma filter_loop_complete c app_cards acc :
  Forall complete_card app_cards → is_Ok (filter_loop c app_cards acc).
Proof.
  intros H. revert acc. induction H as [|app rest Happ _ IH]; intros acc; simpl.
  - by eexists.
  - destruct (keeps_complete c app Happ) as [k ->]. simpl. apply IH.
Qed.

(** An exception in one iteration ends the loop: nothing is returned. *)
Lemma filter_loop_raise c pre app post acc e :
  is_Ok (filter_loop c pre acc) → keeps c app = Raise e →
  filter_loop c (pre ++ app :: post) acc = Raise e.
Proof.
  revert acc. induction pre as [|a pre IH]; intros acc; simpl.
  - intros _ ->. done.
  - destruct (keeps c a) as [k|]; simpl; [apply IH | by intros [? ?]].
Qed.

Lemma member_spec key sel (app : card) :
  member key sel app = true ↔ ∃ s, app !! key = Some (JStr s) ∧ s ∈ sel.
Proof.
  unfold member. destruct (app !! key) as [v|].
  - destruct v; simpl;
      try (split; [done | by intros (s0 & [=] & _)]).
    rewrite bool_decide_eq_true. split.
    + intros H. by exists s.
    + by intros (s0 & [= ->] & H).
  - split; [done | by intros (s0 & [=] & _)].
Qed.

Lemma title_matches_spec q (app : card) :
  title_matches q app = true ↔
  ∃ t, app !! "title" = Some (JStr t) ∧ contains_ci t q.
Proof.
  unfold title_matches, contains_ci. destruct (app !! "title") as [v|].
  - destruct v; simpl;
      try (split; [done | by intros (t0 & [=] & _)]).
    rewrite contains_spec. split.
    + intros H. by exists s.
    + by intros (t0 & [= ->] & H).
  - split; [done | by intros (t0 & [=] & _)].
Qed.

Lemma passesb_passes c app : passesb c app = true ↔ passes c app.
Proof.
  unfold passesb, passes.
  rewrite !andb_true_iff, !orb_true_iff, !negb_true_iff.
  rewrite truthy_false, !nonempty_false, title_matches_spec, !member_spec.
  tauto.
Qed.

Lemma keeps_no_criteria app : keeps no_criteria app = Ok true.
Proof. reflexivity. Qed.

Lemma filter_loop_no_criteria app_cards acc :
  filter_loop no_criteria app_cards acc = Ok (acc ++ app_cards).
Proof.
  revert acc. induction app_cards as [|app rest IH]; intros acc; simpl.
  - by rewrite app_nil_r.
  - rewrite IH. by rewrite <- app_assoc.
Qed.

Ltac solve_complete_card :=
  repeat split; eexists; vm_compute; reflexivity.

(** C2: whenever filtering returns a list, a record of the catalog is in
    that list exactly when the search text is empty or occurs in its title
    (letter case ignored) and each of the three selections is empty or
    contains the record's value for that dimension; and filtering does
    return a list for every catalog whose records carry the fields the
    filter reads. *)
Theorem filtered_apps_membership c catalog :
  (∀ out, filtered_apps c catalog = Ok out →
          ∀ app, app ∈ catalog → (app ∈ out ↔ passes c app)) ∧
  (Forall complete_card catalog → ∃ out, filtered_apps c catalog = Ok out).
Proof.
  split.
  - intros out Hout app Hin.
    apply filter_loop_filter in Hout as ->. simpl.
    rewrite list_elem_of_filter, <- passesb_passes, Is_true_true. tauto.
  - apply filter_loop_complete.
Qed.

Lemma filtered_apps_membership_witness :
  Forall complete_card [risk_summarizer; kyc_assistant] ∧
  filtered_apps (Criteria "kyc" [] [] []) [risk_summarizer; kyc_assistant]
  = Ok [kyc_assistant] ∧
  (kyc_assistant ∈ [kyc_assistant] ↔ passes (Criteria "kyc" [] [] []) kyc_assistant) ∧
  (risk_summarizer ∈ [kyc_assistant] ↔ passes (Criteria "kyc" [] [] []) risk_summarizer).
Proof.
  assert (H : Forall complete_card [risk_summarizer; kyc_assistant]).
  { repeat constructor; solve_complete_card. }
  assert (Hout : filtered_apps (Criteria "kyc" [] [] []) [risk_summarizer; kyc_assistant]
                 = Ok [kyc_assistant]) by (vm_compute; reflexivity).
  pose proof (proj1 (filtered_apps_membership (Criteria "kyc" [] [] [])
                       [risk_summarizer; kyc_assistant]) _ Hout) as Hiff.
  split; [exact H|]. split; [exact Hout|]. split.
  - apply Hiff. apply list_elem_of_In. right. left. reflexivity.
  - apply Hiff. apply list_elem_of_In. left. reflexivity.
Defined.

(** C3: whatever list filtering returns is the catalog with some records
    dropped, the others kept once each in their original order; it returns
    for every catalog whose records carry the fields the filter reads; and
    with an empty search text and three empty selections it returns the
    whole catalog unchanged. *)
Theorem filtered_apps_order c catalog :
  (∀ out, filtered_apps c catalog = Ok out →
          out `sublist_of` catalog ∧
          out = filter (λ app, passesb c app) catalog) ∧
  (Forall complete_card catalog → is_Ok (filtered_apps c catalog)) ∧
  filtered_apps no_criteria catalog = Ok catalog.
Proof.
  split; [|split].
  - intros out H. apply filter_loop_filter in H. simpl in H. subst out.
    split; [apply sublist_filter | done].
  - apply filter_loop_complete.
  - apply filter_loop_no_criteria.
Qed.

Lemma filtered_apps_order_witness :
  filtered_apps (Criteria EmptyString [] ["Investment Bank"] [])
    [risk_summarizer; kyc_assistant] = Ok [risk_summarizer] ∧
  [risk_summarizer] `sublist_of` [risk_summarizer; kyc_assistant].
Proof.
  assert (H : filtered_apps (Criteria EmptyString [] ["Investment Bank"] [])
                [risk_summarizer; kyc_assistant] = Ok [risk_summarizer]).
  { vm_compute. reflexivity. }
  split; [exact H|].
  exact (proj1 (proj1 (filtered_apps_order _ _) _ H)).
Defined.


Lemma rejects_search_insert q (app : card) key v :
  key ≠ "title" → rejects_search q (<[key:=v]> app) = rejects_search q app.
Proof.
  intros Hne. unfold rejects_search, subscript. by rewrite lookup_insert_ne.
Qed.

Lemma rejects_dimension_insert sel k (app : card) key v :
  key ≠ k → rejects_dimension sel k (<[key:=v]> app) = rejects_dimension sel k app.
Proof.
  intros Hne. unfold rejects_dimension, subscript. by rewrite lookup_insert_ne.
Qed.

Lemma rejects_dimension_missing sel key (app : card) :
  app !! key = None → sel ≠ [] →
  rejects_dimension sel key app = Raise (KeyError key).
Proof.
  intros Hk Hsel. unfold rejects_dimension, subscript. rewrite Hk.
  by destruct sel.
Qed.



(** * Card rendering *)

Lemma escape_default (app : card) key dflt :
  strings_only app →
  escape_value (default (JStr dflt) (app !! key))
  = Ok (html_escape (str_field app key dflt)).
Proof.
  intros Hs. unfold str_field. destruct (app !! key) as [v|] eqn:E; [|done].
  destruct (Hs _ _ E) as [s ->]. done.
Qed.

Lemma strip_empty : Py.strip EmptyString = EmptyString.
Proof. reflexivity. Qed.

Lemma get_stripped_strings (app : card) key :
  strings_only app →
  get_stripped app key = Ok (Py.strip (str_field app key EmptyString)).
Proof.
  intros Hs. unfold get_stripped, str_field.
  destruct (app !! key) as [v|] eqn:E; [|done].
  destruct (Hs _ _ E) as [s ->]. simpl. by destruct s.
Qed.

Lemma template_tail_assoc (a b c : string) : (a +:+ b) +:+ c = a +:+ b +:+ c.
Proof. induction a as [|x a IH]; simpl; [done | by rewrite IH]. Qed.

Lemma infix_pair a b post : infix (a +:+ b) (a +:+ b +:+ post).
Proof. rewrite <- template_tail_assoc. apply infix_here. Qed.

(** The needle ends inside a longer literal of the template. *)
Lemma infix_split a b lit rest post :
  lit = b +:+ rest → infix (a +:+ b) (a +:+ lit +:+ post).
Proof.
  intros ->. rewrite (template_tail_assoc b rest post). apply infix_pair.
Qed.

Ltac find_in_template :=
  repeat first
    [ eapply infix_split; reflexivity
    | apply infix_skip ].

Lemma feature_card_html_title vc cc top img alt sh kh title desc th ah :
  infix (title +:+ "</h3>")
    (feature_card_html vc cc top img alt sh kh title desc th ah).
Proof.
  unfold feature_card_html.
  find_in_template.
Qed.

Lemma plain_card_html_title vc cc top img alt sh title desc th ah :
  infix (title +:+ "</h3>")
    (plain_card_html vc cc top img alt sh title desc th ah).
Proof.
  unfold plain_card_html.
  find_in_template.
Qed.

Section RenderingFacts.

Variables account_name account_key container_name : option string.
Variable generate_blob_sas : string -> string -> string -> string -> sas_outcome.
Variable read_file : string -> option (list byte).
Variable guess_type : string -> option string.
Variable APP_CARD_CSS : string.

Local Abbreviation get_signed_url' :=
  (get_signed_url account_name account_key container_name generate_blob_sas).
Local Abbreviation sign_demo_url' :=
  (sign_demo_url account_name account_key container_name generate_blob_sas).
Local Abbreviation signing_fails' :=
  (signing_fails account_name account_key container_name generate_blob_sas).
Local Abbreviation card_locals' :=
  (card_locals account_name account_key container_name generate_blob_sas
     read_file guess_type APP_CARD_CSS).
Local Abbreviation render_app_card' :=
  (render_app_card account_name account_key container_name generate_blob_sas
     read_file guess_type APP_CARD_CSS).

(** A failed signing returns [None] and reports one error on the page. *)
Lemma get_signed_url_fails blob_name s :
  signing_fails' blob_name →
  ∃ msg, get_signed_url' blob_name s = (Ok None, logged s [StError msg]).
Proof.
  unfold signing_fails, get_signed_url. intros H.
  destruct (Py.present account_name) eqn:E1; simpl; [|by eexists].
  destruct (Py.present account_key) eqn:E2; simpl; [|by eexists].
  destruct (Py.present container_name) eqn:E3; simpl; [|by eexists].
  destruct H as [H|[H|[H|[e H]]]]; try discriminate.
  rewrite H. by eexists.
Qed.

(** Signing never raises: it yields a URL or [None]. *)
Lemma get_signed_url_returns blob_name s :
  ∃ r s', get_signed_url' blob_name s = (Ok r, s').
Proof.
  unfold get_signed_url.
  destruct (_ || _); [by eexists _, _|].
  destruct (generate_blob_sas _ _ _ _); by eexists _, _.
Qed.

Lemma sign_demo_url_returns demo_url s :
  ∃ d s', sign_demo_url' demo_url s = (Ok d, s').
Proof.
  unfold sign_demo_url. destruct (Py.truthy demo_url); [|by eexists _, _].
  destruct (get_signed_url_returns demo_url s) as (r & s' & Hr).
  unfold mbind, St_bind. rewrite Hr.
  destruct (Py.present r); by eexists _, _.
Qed.

(** After a failed signing the variable still holds the raw value, and the
    page has gained the error and the warning. *)
Lemma sign_demo_url_fails demo_url s :
  demo_url ≠ EmptyString → signing_fails' demo_url →
  ∃ msg, sign_demo_url' demo_url s
         = (Ok demo_url, logged s [StError msg; StWarning (demo_warning demo_url)]).
Proof.
  intros Hne Hfail. unfold sign_demo_url.
  destruct demo_url as [|c d]; [done|]. simpl.
  destruct (get_signed_url_fails (String c d) s Hfail) as [msg Hmsg].
  exists msg. unfold mbind, St_bind. rewrite Hmsg. simpl.
  unfold logged. simpl. by rewrite <- app_assoc.
Qed.

Lemma image_of_strings (app : card) :
  strings_only app →
  image_of read_file guess_type app
  = Ok (_image_to_data_uri read_file guess_type (str_field app "image" EmptyString)).
Proof.
  intros Hs. unfold image_of, str_field.
  destruct (app !! "image") as [v|] eqn:E; [|done].
  destruct (Hs _ _ E) as [p ->]. done.
Qed.

(** The session once the style sheet has been written. *)
Lemma inject_app_card_css_once_run s :
  inject_app_card_css_once APP_CARD_CSS s
  = (Ok tt, {| _app_card_css_done := true;
               page := page s ++ [StMarkdown APP_CARD_CSS] |}).
Proof. reflexivity. Qed.

(** For a record of strings every statement of the body returns; the
    locals are those computed from the record's fields and from the value
    the signing block leaves in [demo_url]. *)
Lemma card_locals_strings app variant clamp_width top_margin_px s d s2 :
  strings_only app →
  sign_demo_url' (Py.strip (str_field app "demo_url" EmptyString))
    {| _app_card_css_done := true; page := page s ++ [StMarkdown APP_CARD_CSS] |}
  = (Ok d, s2) →
  ∃ v, card_locals' app variant clamp_width top_margin_px s = (Ok v, s2) ∧
       v_title v = html_escape (str_field app "title" "Untitled application") ∧
       v_app_url v = Py.strip (str_field app "app_url" EmptyString) ∧
       v_demo_url v = d ∧
       v_docs_url v = Py.strip (str_field app "docs_url" EmptyString) ∧
       v_actions v = build_actions (v_app_url v) d (v_docs_url v) ∧
       infix (v_title v +:+ "</h3>") (v_card_html v).
Proof.
  intros Hs Hsign. unfold card_locals, mbind, St_bind, lift.
  rewrite inject_app_card_css_once_run.
  rewrite !(escape_default app _ _ Hs).
  rewrite !(get_stripped_strings app _ Hs).
  rewrite (image_of_strings app Hs), Hsign.
  cbv beta iota. eexists. split; [reflexivity|]. simpl.
  repeat split.
  destruct (String.eqb variant "feature").
  - apply feature_card_html_title.
  - apply plain_card_html_title.
Qed.

Lemma build_actions_demo app_url demo_url docs_url :
  demo_url ≠ EmptyString →
  watch_demo_action demo_url ∈ build_actions app_url demo_url docs_url ∧
  (app_url = EmptyString → docs_url = EmptyString →
   build_actions app_url demo_url docs_url = [watch_demo_action demo_url]).
Proof.
  intros Hne. unfold build_actions.
  destruct demo_url as [|c d]; [done|].
  split.
  - destruct (Py.truthy app_url), (Py.truthy docs_url); simpl;
      rewrite ?elem_of_cons; auto.
  - by intros -> ->.
Qed.



End RenderingFacts.

Lemma strings_only_empty : strings_only (∅ : card).
Proof. intros k v H. by rewrite lookup_empty in H. Qed.

Lemma strings_only_insert key s (app : card) :
  strings_only app → strings_only (<[key:=JStr s]> app).
Proof.
  intros Hs k v H. apply lookup_insert_Some in H as [[_ <-]|[_ H]].
  - by exists s.
  - by apply (Hs k).
Qed.

Ltac solve_strings_only :=
  repeat apply strings_only_insert; apply strings_only_empty.





(** * The archive lookup *)

Lemma resource_url_or_default r :
  Py.or_default (WebResourceURL r) EmptyString = resource_url r.
Proof.
  unfold resource_url. destruct (WebResourceURL r) as [[|c u]|]; reflexivity.
Qed.

Lemma url_matches_spec needles r :
  url_matches needles r = true ↔ token_match needles r.
Proof.
  unfold url_matches, token_match. rewrite resource_url_or_default.
  rewrite forallb_forall. split.
  - intros H n Hn. apply contains_spec, H. by apply list_elem_of_In.
  - intros H n Hn. apply contains_spec, H. by apply list_elem_of_In.
Qed.

Lemma url_matches_false needles r :
  url_matches needles r = false ↔ ¬ token_match needles r.
Proof.
  rewrite <- url_matches_spec. destruct (url_matches needles r); split; congruence.
Qed.

(** The scan stops at the first entry that matches. *)
Lemma scan_subresources_first needles mo pre r post :
  Forall (λ x, ¬ token_match needles x) pre → token_match needles r →
  scan_subresources needles mo (pre ++ r :: post) = Some (_data_uri_from_wa r mo).
Proof.
  intros Hpre Hr. induction Hpre as [|x pre Hx _ IH]; simpl.
  - apply url_matches_spec in Hr. by rewrite Hr.
  - apply url_matches_false in Hx. by rewrite Hx.
Qed.

Lemma scan_subresources_none needles mo rs :
  Forall (λ x, ¬ token_match needles x) rs ↔
  scan_subresources needles mo rs = None.
Proof.
  induction rs as [|x rs IH]; simpl.
  - split; [done | constructor].
  - destruct (url_matches needles x) eqn:E.
    + split; [|done]. intros H. apply Forall_cons in H as [H _].
      by apply url_matches_spec in E.
    + rewrite <- IH. apply url_matches_false in E. split.
      * intros H. by apply Forall_cons in H as [_ H].
      * intros H. by constructor.
Qed.

(** Every list has a first match or no match at all. *)
Lemma first_match_or_none needles (rs : list resource) :
  (∃ pre r post, rs = pre ++ r :: post ∧
                 Forall (λ x, ¬ token_match needles x) pre ∧
                 token_match needles r) ∨
  Forall (λ x, ¬ token_match needles x) rs.
Proof.
  induction rs as [|x rs IH].
  - right. constructor.
  - destruct (url_matches needles x) eqn:E.
    + left. exists [], x, rs. apply url_matches_spec in E. by repeat split.
    + apply url_matches_false in E. destruct IH as [(pre & r & post & -> & Hpre & Hr)|H].
      * left. exists (x :: pre), r, post. repeat split; [|done]. by constructor.
      * right. by constructor.
Qed.

Lemma find_first_none_iff wa_file needles mo :
  _find_first_data_uri wa_file needles mo = None ↔ no_match wa_file needles.
Proof.
  destruct wa_file as [|subs]; simpl; [done|].
  symmetry. apply scan_subresources_none.
Qed.

(** C6: an unreadable archive gives [None]; a readable one gives the data
    URI of the first sub-resource, in stored order, whose URL contains
    every token (letter case ignored), so that of two matching entries the
    earlier wins, and [None] when no entry matches; one of the two cases
    always applies.  The data URI carries the override as MIME type when
    one is supplied, else the entry's declared type, before the base64
    text of the entry's data. *)
Theorem find_first_data_uri_spec wa_file needles mo :
  match wa_file with
  | Unreadable => _find_first_data_uri wa_file needles mo = None
  | Plist subs =>
      (∀ pre r post,
         default [] subs = pre ++ r :: post →
         Forall (λ x, ¬ token_match needles x) pre →
         token_match needles r →
         _find_first_data_uri wa_file needles mo = Some (_data_uri_from_wa r mo)) ∧
      (Forall (λ x, ¬ token_match needles x) (default [] subs) →
       _find_first_data_uri wa_file needles mo = None) ∧
      ((∃ pre r post, default [] subs = pre ++ r :: post ∧
                      Forall (λ x, ¬ token_match needles x) pre ∧
                      token_match needles r) ∨
       Forall (λ x, ¬ token_match needles x) (default [] subs))
  end ∧
  (∀ r m, mo = Some m → m ≠ EmptyString →
          _data_uri_from_wa r mo
          = "data:" +:+ m +:+ ";base64," +:+ b64encode (default [] (WebResourceData r))) ∧
  (∀ r m, mo = None → WebResourceMIMEType r = Some m →
          _data_uri_from_wa r mo
          = "data:" +:+ m +:+ ";base64," +:+ b64encode (default [] (WebResourceData r))).
Proof.
  split; [|split].
  - destruct wa_file as [|subs]; simpl; [done|]. split; [|split].
    + intros pre r post -> Hpre Hr. by apply scan_subresources_first.
    + apply scan_subresources_none.
    + apply first_match_or_none.
  - intros r m -> Hm. unfold _data_uri_from_wa, _b64_uri. simpl.
    by destruct m.
  - intros r m -> Hm. unfold _data_uri_from_wa, _b64_uri. simpl.
    by rewrite Hm.
Qed.

Lemma find_first_data_uri_spec_witness :
  _find_first_data_uri
    (Plist (Some [light_font_resource; logo_resource; second_logo_resource]))
    ["UBS_"; "logo"; ".svg"] None
  = Some "data:image/svg+xml;base64,PHN2Zy8+".
Proof.
  pose proof (find_first_data_uri_spec
                (Plist (Some [light_font_resource; logo_resource; second_logo_resource]))
                ["UBS_"; "logo"; ".svg"] None) as [[Hfirst _] _].
  rewrite (Hfirst [light_font_resource] logo_resource [second_logo_resource]).
  - vm_compute. reflexivity.
  - reflexivity.
  - constructor; [|constructor]. apply url_matches_false. vm_compute. reflexivity.
  - apply url_matches_spec. vm_compute. reflexivity.
Defined.

(** C10: with an empty token list a readable archive with at least one
    sub-resource yields the data URI of its very first sub-resource. *)
Theorem empty_needles_first r rest mo :
  _find_first_data_uri (Plist (Some (r :: rest))) [] mo
  = Some (_data_uri_from_wa r mo).
Proof. reflexivity. Qed.

(** * Terminal defaults *)

Lemma no_match_find wa_file needles mo :
  no_match wa_file needles → _find_first_data_uri wa_file needles mo = None.
Proof. apply find_first_none_iff. Qed.

(** C7: when none of the archive lookups of an asset's chain finds a
    match, the logo and the hero image resolve to their fixed remote URLs
    and each font resolves to [None], so that no font face is emitted. *)
Theorem exhausted_chain_defaults wa_file :
  (no_match wa_file ["ubs_"; "logo"; "semibold"; ".svg"] →
   LOGO_URI wa_file
   = "https://www.ubs.com/etc/designs/fit/img/UBS_Logo_Semibold.svg") ∧
  (no_match wa_file ["promotion"; "image-l"; ".jpg"] →
   HERO_URI wa_file
   = "https://www.ubs.com/content/homepage/uk/en/new-promotions/gwr2025/jcr:content/promotion/image-l.3840.jpg/1750249353973.jpg") ∧
  (no_match wa_file ["frutiger"; "-lt"; ".woff2"] →
   no_match wa_file ["frutiger"; "light"; ".woff2"] →
   FONT_LT wa_file = None) ∧
  (no_match wa_file ["frutiger"; "-rg"; ".woff2"] →
   no_match wa_file ["frutiger"; "regular"; ".woff2"] →
   no_match wa_file ["frutiger"; "roman"; ".woff2"] →
   FONT_RG wa_file = None) ∧
  (no_match wa_file ["frutiger"; "-md"; ".woff2"] →
   no_match wa_file ["frutiger"; "medium"; ".woff2"] →
   FONT_MD wa_file = None) ∧
  (no_match wa_file ["ubs-homepagev3-font-icons"; ".woff2"] →
   UBS_ICONS wa_file = None) ∧
  (FONT_LT wa_file = None → FONT_RG wa_file = None →
   FONT_MD wa_file = None → UBS_ICONS wa_file = None →
   fontface_blocks wa_file = EmptyString).
Proof.
  unfold fontface_blocks, LOGO_URI, HERO_URI, FONT_LT, FONT_RG, FONT_MD, UBS_ICONS.
  repeat apply conj.
  - intros H. by rewrite (no_match_find _ _ _ H).
  - intros H. by rewrite (no_match_find _ _ _ H).
  - intros H1 H2. by rewrite (no_match_find _ _ _ H1), (no_match_find _ _ _ H2).
  - intros H1 H2 H3.
    by rewrite (no_match_find _ _ _ H1), (no_match_find _ _ _ H2),
         (no_match_find _ _ _ H3).
  - intros H1 H2. by rewrite (no_match_find _ _ _ H1), (no_match_find _ _ _ H2).
  - intros H. by rewrite (no_match_find _ _ _ H).
  - intros -> -> -> ->. reflexivity.
Qed.

Lemma exhausted_chain_defaults_witness :
  LOGO_URI (Plist (Some [light_font_resource]))
  = "https://www.ubs.com/etc/designs/fit/img/UBS_Logo_Semibold.svg" ∧
  FONT_RG Unreadable = None.
Proof.
  split.
  - apply (exhausted_chain_defaults (Plist (Some [light_font_resource]))).
    constructor; [|constructor]. apply url_matches_false. vm_compute. reflexivity.
  - apply (exhausted_chain_defaults Unreadable); exact I.
Defined.

(** * Font faces *)



(** * The search icon *)

Lemma find_first_split {A} (f : A → bool) l pre p post :
  l = pre ++ p :: post → Forall (λ x, f x = false) pre → f p = true →
  List.find f l = Some p.
Proof.
  intros -> Hpre Hp. induction Hpre as [|x pre Hx _ IH]; simpl.
  - by rewrite Hp.
  - by rewrite Hx.
Qed.

Lemma find_none_all {A} (f : A → bool) l :
  Forall (λ x, f x = false) l → List.find f l = None.
Proof.
  intros H. induction H as [|x l Hx _ IH]; simpl; [done|]. by rewrite Hx.
Qed.

Lemma not_path_tag e :
  tag_of e ≠ svg_path_tag → String.eqb (tag_of e) svg_path_tag = false.
Proof. apply String.eqb_neq. Qed.

(** [iter] lists an element before everything below it. *)
Lemma iter_descendants e : iter e = e :: descendants e.
Proof.
  destruct e as [t a x tl ch]. reflexivity.
Qed.

Section SearchIconFacts.

Variable requests_get : string -> list byte.
Variable fromstring : list byte -> result element.
Variable tostring : element -> string.

Local Abbreviation SEARCH_ICON_URI' :=
  (SEARCH_ICON_URI requests_get fromstring tostring).
Local Abbreviation import_assets' :=
  (import_assets requests_get fromstring tostring).

(** C9: for a fetched and parsed icon-definitions document, the first
    path element below the root, in document order, is serialised and
    wrapped in a standalone [svg] element, and the icon is the base64 data
    URI of that text; when no element below the root is a path, the
    extraction raises, and so does the import of the whole module. *)
Theorem search_icon_extraction root :
  fromstring (requests_get search_defs_url) = Ok root →
  (∀ pre p post,
     descendants root = pre ++ p :: post →
     Forall (λ e, tag_of e ≠ svg_path_tag) pre →
     tag_of p = svg_path_tag →
     SEARCH_ICON_URI'
     = Ok ("data:image/svg+xml;base64," +:+
           b64encode (str_encode
             ("<svg xmlns='http://www.w3.org/2000/svg' viewBox='0 0 24 24'>"
              +:+ tostring p +:+ "</svg>"))) ∧
     ∀ wa_file, ∃ m, import_assets' wa_file = Ok m ∧
                     Ok (m_SEARCH_ICON_URI m) = SEARCH_ICON_URI') ∧
  (Forall (λ e, tag_of e ≠ svg_path_tag) (descendants root) →
   SEARCH_ICON_URI' = Raise AttributeError ∧
   ∀ wa_file, import_assets' wa_file = Raise AttributeError).
Proof.
  intros Hroot. split.
  - intros pre p post Hd Hpre Hp.
    assert (Hfind : find_svg_path root = Some p).
    { unfold find_svg_path. apply (find_first_split _ _ pre p post Hd).
      - eapply Forall_impl; [exact Hpre|]. intros e. apply not_path_tag.
      - rewrite Hp. apply String.eqb_refl. }
    assert (Hicon : SEARCH_ICON_URI'
              = Ok ("data:image/svg+xml;base64," +:+
                    b64encode (str_encode (search_svg_of (tostring p))))).
    { unfold SEARCH_ICON_URI. rewrite Hroot. simpl. rewrite Hfind. reflexivity. }
    split; [exact Hicon|].
    intros wa_file. unfold import_assets. rewrite Hicon. simpl.
    eexists. split; reflexivity.
  - intros Hnone.
    assert (Hfind : find_svg_path root = None).
    { unfold find_svg_path. apply find_none_all.
      eapply Forall_impl; [exact Hnone|]. intros e. apply not_path_tag. }
    assert (Hicon : SEARCH_ICON_URI' = Raise AttributeError).
    { unfold SEARCH_ICON_URI. rewrite Hroot. simpl. rewrite Hfind. reflexivity. }
    split; [exact Hicon|].
    intros wa_file. unfold import_assets. rewrite Hicon. reflexivity.
Qed.

End SearchIconFacts.

Lemma search_icon_extraction_witness :
  parses_to defs_document (served_nothing search_defs_url) = Ok defs_document ∧
  SEARCH_ICON_URI served_nothing (parses_to defs_document) sample_tostring
  = Ok ("data:image/svg+xml;base64," +:+
        b64encode (str_encode
          ("<svg xmlns='http://www.w3.org/2000/svg' viewBox='0 0 24 24'>"
           +:+ sample_tostring first_path +:+ "</svg>"))) ∧
  SEARCH_ICON_URI served_nothing (parses_to pathless_document) sample_tostring
  = Raise AttributeError.
Proof.
  split; [reflexivity|]. split.
  - apply (search_icon_extraction served_nothing (parses_to defs_document)
             sample_tostring defs_document eq_refl)
      with (pre := [Element "{http://www.w3.org/2000/svg}g" [] None None [first_path]])
           (post := [second_path]).
    + reflexivity.
    + constructor; [|constructor]. simpl. discriminate.
    + reflexivity.
  - apply (search_icon_extraction served_nothing (parses_to pathless_document)
             sample_tostring pathless_document eq_refl).
    constructor; [|constructor]. simpl. discriminate.
Defined.

(** * Further properties of the catalog filter *)

Lemma filter_loop_kept c app_cards acc out :
  filter_loop c app_cards acc = Ok out →
  ∃ kept, out = acc ++ kept ∧ Forall (λ app, keeps c app = Ok true) kept.
Proof.
  revert acc. induction app_cards as [|app rest IH]; intros acc; simpl.
  - intros [= <-]. exists []. by rewrite app_nil_r.
  - destruct (keeps c app) as [[]|] eqn:Ek; simpl; [| |done].
    + intros (kept & -> & Hk)%IH. exists (app :: kept).
      split; [by rewrite <- app_assoc | by constructor].
    + apply IH.
Qed.

Lemma filter_loop_all_kept c app_cards acc :
  Forall (λ app, keeps c app = Ok true) app_cards →
  filter_loop c app_cards acc = Ok (acc ++ app_cards).
Proof.
  intros H. revert acc. induction H as [|app rest Hk _ IH]; intros acc; simpl.
  - by rewrite app_nil_r.
  - rewrite Hk. simpl. rewrite IH. by rewrite <- app_assoc.
Qed.

Lemma filter_loop_ext c c' app_cards acc :
  (∀ app, keeps c app = keeps c' app) →
  filter_loop c app_cards acc = filter_loop c' app_cards acc.
Proof.
  intros H. revert acc. induction app_cards as [|app rest IH]; intros acc; simpl.
  - done.
  - rewrite H. destruct (keeps c' app) as [k|]; simpl; [apply IH | done].
Qed.

Lemma filter_loop_acc c app_cards acc :
  filter_loop c app_cards acc
  = (out ← filter_loop c app_cards []; Ok (acc ++ out)).
Proof.
  revert acc. induction app_cards as [|app rest IH]; intros acc; simpl.
  - by rewrite app_nil_r.
  - destruct (keeps c app) as [[]|]; simpl; [| apply IH | done].
    rewrite (IH (acc ++ [app])), (IH [app]).
    destruct (filter_loop c rest []) as [out|]; simpl; [|done].
    by rewrite <- app_assoc.
Qed.

Lemma filter_loop_app c l1 l2 acc :
  filter_loop c (l1 ++ l2) acc
  = (mid ← filter_loop c l1 acc; filter_loop c l2 mid).
Proof.
  revert acc. induction l1 as [|app rest IH]; intros acc; simpl.
  - done.
  - destruct (keeps c app) as [k|]; simpl; [apply IH | done].
Qed.

(** X1: filtering is idempotent: running the loop again, with the same
    criteria, on a list it returned gives that list back. *)
Theorem filtered_apps_idempotent c catalog out :
  filtered_apps c catalog = Ok out → filtered_apps c out = Ok out.
Proof.
  intros (kept & -> & Hk)%filter_loop_kept. simpl.
  by apply (filter_loop_all_kept c kept []).
Qed.

Lemma filtered_apps_idempotent_witness :
  filtered_apps (Criteria "kyc" [] [] []) [risk_summarizer; kyc_assistant]
  = Ok [kyc_assistant] ∧
  filtered_apps (Criteria "kyc" [] [] []) [kyc_assistant] = Ok [kyc_assistant].
Proof.
  assert (H : filtered_apps (Criteria "kyc" [] [] []) [risk_summarizer; kyc_assistant]
              = Ok [kyc_assistant]) by (vm_compute; reflexivity).
  split; [exact H|].
  exact (filtered_apps_idempotent _ _ _ H).
Defined.

(** X2: filtering a concatenation is filtering the parts in turn: the
    result is the two outputs joined, and an exception in the first part
    is the exception of the whole. *)
Theorem filtered_apps_app c l1 l2 :
  filtered_apps c (l1 ++ l2)
  = (o1 ← filtered_apps c l1; o2 ← filtered_apps c l2; Ok (o1 ++ o2)).
Proof.
  unfold filtered_apps. rewrite filter_loop_app.
  destruct (filter_loop c l1 []) as [o1|]; simpl; [|done].
  apply filter_loop_acc.
Qed.

Lemma lower_truthy q : Py.truthy (Py.lower q) = Py.truthy q.
Proof. by destruct q. Qed.

(** X3: the letter case of the search text does not matter: two search
    texts with the same lower-case form give the same result, be it a
    list or an exception, on every catalog. *)
Theorem search_query_case_irrelevant q1 q2 sa sb sf catalog :
  Py.lower q1 = Py.lower q2 →
  filtered_apps (Criteria q1 sa sb sf) catalog
  = filtered_apps (Criteria q2 sa sb sf) catalog.
Proof.
  intros Hq. apply filter_loop_ext. intros app. unfold keeps, rejects_search. simpl.
  rewrite <- (lower_truthy q1), <- (lower_truthy q2), Hq. reflexivity.
Qed.

Lemma search_query_case_irrelevant_witness :
  Py.lower "KYC" = Py.lower "kyc" ∧
  filtered_apps (Criteria "KYC" [] [] []) [risk_summarizer; kyc_assistant]
  = filtered_apps (Criteria "kyc" [] [] []) [risk_summarizer; kyc_assistant].
Proof.
  assert (H : Py.lower "KYC" = Py.lower "kyc") by reflexivity.
  split; [exact H|].
  exact (search_query_case_irrelevant "KYC" "kyc" [] [] []
           [risk_summarizer; kyc_assistant] H).
Defined.

Lemma rejects_dimension_same_members sel sel' key app :
  (∀ x, x ∈ sel ↔ x ∈ sel') →
  rejects_dimension sel key app = rejects_dimension sel' key app.
Proof.
  intros H. unfold rejects_dimension.
  assert (Hne : Py.nonempty sel = Py.nonempty sel').
  { destruct sel as [|x sel], sel' as [|y sel']; simpl; try done.
    - exfalso. apply (not_elem_of_nil y), H. left.
    - exfalso. apply (not_elem_of_nil x), H. left. }
  rewrite Hne. destruct (Py.nonempty sel'); [|done].
  destruct (subscript app key) as [v|]; simpl; [|done].
  destruct v; simpl; try done.
  by rewrite (bool_decide_ext _ _ (H s)).
Qed.

(** X4: a selection counts only through its members: two criteria whose
    selections have the same members, in whatever order and with whatever
    repetitions, give the same result on every catalog. *)
Theorem selections_as_sets q sa sb sf sa' sb' sf' catalog :
  (∀ x, x ∈ sa ↔ x ∈ sa') →
  (∀ x, x ∈ sb ↔ x ∈ sb') →
  (∀ x, x ∈ sf ↔ x ∈ sf') →
  filtered_apps (Criteria q sa sb sf) catalog
  = filtered_apps (Criteria q sa' sb' sf') catalog.
Proof.
  intros Ha Hb Hf. apply filter_loop_ext. intros app. unfold keeps. simpl.
  rewrite (rejects_dimension_same_members sa sa' _ _ Ha).
  rewrite (rejects_dimension_same_members sb sb' _ _ Hb).
  rewrite (rejects_dimension_same_members sf sf' _ _ Hf).
  reflexivity.
Qed.

Lemma selections_as_sets_witness :
  filtered_apps (Criteria EmptyString ["NLP"; "Generative AI"] [] [])
    [risk_summarizer; kyc_assistant]
  = filtered_apps (Criteria EmptyString ["Generative AI"; "NLP"; "NLP"] [] [])
      [risk_summarizer; kyc_assistant].
Proof.
  apply selections_as_sets; intros x; rewrite ?elem_of_cons; tauto.
Defined.

Lemma rejects_dimension_non_string sel key (app : card) v :
  app !! key = Some v → (∀ s, v ≠ JStr s) → sel ≠ [] →
  rejects_dimension sel key app = Ok true.
Proof.
  intros Hk Hv Hsel. unfold rejects_dimension, subscript. rewrite Hk.
  destruct sel; [done|]. simpl.
  destruct v as [| | |t| |]; try done. by destruct (Hv t).
Qed.

(** X5: a record whose value for a dimension is present but is not a
    string (null, a number, a list) is, under a non-empty selection on that
    dimension, excluded without error whenever the earlier tests let it
    through; whatever the earlier tests decide or raise stays as it is. *)
Theorem non_string_dimension c (app : card) d v :
  app !! key_of d = Some v → (∀ s, v ≠ JStr s) → selection c d ≠ [] →
  keeps c app = match keeps (before d c) app with
                | Ok true => Ok false
                | r => r
                end.
Proof.
  intros Hk Hv Hsel. destruct c as [q sa sb sf]. unfold keeps.
  destruct d; simpl in *;
    destruct (rejects_search q app) as [[]|]; simpl; try done.
  - by rewrite (rejects_dimension_non_string sa "ai_type" app v).
  - destruct (rejects_dimension sa "ai_type" app) as [[]|]; simpl; try done.
    by rewrite (rejects_dimension_non_string sb "business_line" app v).
  - destruct (rejects_dimension sa "ai_type" app) as [[]|]; simpl; try done.
    destruct (rejects_dimension sb "business_line" app) as [[]|]; simpl; try done.
    by rewrite (rejects_dimension_non_string sf "function" app v).
Qed.

Lemma non_string_dimension_witness :
  keeps (Criteria EmptyString [] ["Wealth Management"] [])
    (<["business_line":=JNull]> unassigned_card) = Ok false.
Proof.
  rewrite (non_string_dimension
             (Criteria EmptyString [] ["Wealth Management"] [])
             (<["business_line":=JNull]> unassigned_card) BusinessLine JNull).
  - vm_compute. reflexivity.
  - vm_compute. reflexivity.
  - intros s. discriminate.
  - simpl. discriminate.
Defined.

(** X6: a record whose title is present but is not a string makes the
    filter raise [AttributeError] as soon as the search text is not empty,
    and that ends the filtering of the whole catalog. *)
Theorem non_string_title c (app : card) v :
  app !! "title" = Some v → (∀ s, v ≠ JStr s) →
  search_query c ≠ EmptyString →
  keeps c app = Raise AttributeError ∧
  ∀ pre post, is_Ok (filtered_apps c pre) →
              filtered_apps c (pre ++ app :: post) = Raise AttributeError.
Proof.
  intros Hk Hv Hq.
  assert (H : keeps c app = Raise AttributeError).
  { unfold keeps, rejects_search, subscript. rewrite Hk.
    destruct (search_query c); [done|]. simpl.
    destruct v as [| | |t| |]; try done. by destruct (Hv t). }
  split; [exact H|]. intros pre post Hpre. by apply filter_loop_raise.
Qed.

Lemma non_string_title_witness :
  filtered_apps (Criteria "risk" [] [] [])
    [risk_summarizer; <["title":=JNull]> untitled_card]
  = Raise AttributeError.
Proof.
  assert (Hk : (<["title":=JNull]> untitled_card : card) !! "title" = Some JNull)
    by (vm_compute; reflexivity).
  assert (Hv : ∀ s, JNull ≠ JStr s) by (intros s; discriminate).
  assert (Hq : search_query (Criteria "risk" [] [] []) ≠ EmptyString)
    by discriminate.
  apply (proj2 (non_string_title (Criteria "risk" [] [] [])
                  (<["title":=JNull]> untitled_card) JNull Hk Hv Hq)
           [risk_summarizer] []).
  eexists. vm_compute. reflexivity.
Defined.

(** * Further properties of the asset resolver *)

Lemma get_in_chars n s c :
  String.get n s = Some c → c ∈ list_ascii_of_string s.
Proof.
  revert n. induction s as [|a s IH]; intros n; simpl; [done|].
  destruct n as [|n]; rewrite elem_of_cons.
  - intros [= ->]. by left.
  - intros H. right. by apply (IH n).
Qed.

Lemma b64_char_digit n : b64_digit (b64_char n).
Proof.
  unfold b64_digit, b64_char.
  destruct (String.get (N.to_nat n) b64_alphabet) as [c|] eqn:E.
  - left. by apply (get_in_chars (N.to_nat n)).
  - by right.
Qed.

Lemma b64encode_steps (P : list byte → Prop) :
  P [] → (∀ a, P [a]) → (∀ a b, P [a; b]) →
  (∀ a b c rest, P rest → P (a :: b :: c :: rest)) →
  ∀ data, P data.
Proof.
  intros H0 H1 H2 H3.
  assert (H : ∀ data, P data ∧ (∀ a, P (a :: data)) ∧ (∀ a b, P (a :: b :: data))).
  { induction data as [|c data (IH0 & IH1 & IH2)].
    - by repeat split.
    - split; [apply IH1|]. split; [intros a; apply IH2|].
      intros a b. by apply H3. }
  intros data. apply H.
Qed.

(** X7: the text produced for a payload of [n] bytes has [4 * ceil(n/3)]
    characters, each a letter of the base64 alphabet or the padding sign;
    a data URI is the scheme, the MIME type, the marker and that text. *)
Theorem b64_uri_shape data mime :
  _b64_uri data mime = "data:" +:+ mime +:+ ";base64," +:+ b64encode data ∧
  String.length (b64encode data) = 4 * ((length data + 2) / 3) ∧
  ∀ c, c ∈ list_ascii_of_string (b64encode data) → b64_digit c.
Proof.
  split; [reflexivity|]. split.
  - induction data as [| | |a b c rest IH] using b64encode_steps; try reflexivity.
    change (String.length (b64encode (a :: b :: c :: rest)))
      with (4 + String.length (b64encode rest)).
    rewrite IH. cbn [length].
    replace (S (S (S (length rest))) + 2) with (length rest + 2 + 1 * 3) by lia.
    rewrite Nat.div_add by lia. lia.
  - induction data as [| | |a b c rest IH] using b64encode_steps;
      cbn [b64encode list_ascii_of_string]; intros ch;
      rewrite ?elem_of_cons.
    + by intros ?%not_elem_of_nil.
    + intros [->|[->|[->|[->|?%not_elem_of_nil]]]];
        first [apply b64_char_digit | by right | done].
    + intros [->|[->|[->|[->|?%not_elem_of_nil]]]];
        first [apply b64_char_digit | by right | done].
    + intros [->|[->|[->|[->|H]]]]; first [apply b64_char_digit | by apply IH].
Qed.

Lemma scan_subresources_some needles mo rs u :
  scan_subresources needles mo rs = Some u →
  ∃ r, r ∈ rs ∧ url_matches needles r = true ∧ u = _data_uri_from_wa r mo.
Proof.
  induction rs as [|x rs IH]; simpl; [done|].
  destruct (url_matches needles x) eqn:E.
  - intros [= <-]. exists x. split; [left | done].
  - intros (r & Hin & Hr)%IH. exists r. split; [by right | done].
Qed.

Lemma find_first_some wa_file needles mo u :
  _find_first_data_uri wa_file needles mo = Some u →
  ∃ r, url_matches needles r = true ∧ u = _data_uri_from_wa r mo.
Proof.
  destruct wa_file as [|subs]; simpl; [done|].
  intros (r & _ & Hr)%scan_subresources_some. by exists r.
Qed.

Lemma find_first_truthy wa_file needles mo u :
  _find_first_data_uri wa_file needles mo = Some u → Py.truthy u = true.
Proof. intros (r & _ & ->)%find_first_some. reflexivity. Qed.

Lemma or_else_some u b : Py.truthy u = true → Py.or_else (Some u) b = Some u.
Proof. intros H. unfold Py.or_else. by rewrite H. Qed.

Lemma or_default_some u d : Py.truthy u = true → Py.or_default (Some u) d = u.
Proof. intros H. unfold Py.or_default. by rewrite H. Qed.

(** X8: an archive match always wins over what comes later in the chain:
    the logo and the hero image are the archive's data URI whenever their
    lookup finds one, and a font is the result of the first lookup of its
    chain that finds something, the later lookups being consulted only
    when the earlier ones find nothing.  The logo and the hero image are
    never empty. *)
Theorem asset_chain_order wa_file :
  (∀ u, _find_first_data_uri wa_file ["ubs_"; "logo"; "semibold"; ".svg"] None = Some u →
        LOGO_URI wa_file = u) ∧
  (∀ u, _find_first_data_uri wa_file ["promotion"; "image-l"; ".jpg"] None = Some u →
        HERO_URI wa_file = u) ∧
  (∀ u, _find_first_data_uri wa_file ["frutiger"; "-lt"; ".woff2"] (Some "font/woff2") = Some u →
        FONT_LT wa_file = Some u) ∧
  (_find_first_data_uri wa_file ["frutiger"; "-lt"; ".woff2"] (Some "font/woff2") = None →
   FONT_LT wa_file
   = _find_first_data_uri wa_file ["frutiger"; "light"; ".woff2"] (Some "font/woff2")) ∧
  (∀ u, _find_first_data_uri wa_file ["frutiger"; "-rg"; ".woff2"] (Some "font/woff2") = Some u →
        FONT_RG wa_file = Some u) ∧
  (_find_first_data_uri wa_file ["frutiger"; "-rg"; ".woff2"] (Some "font/woff2") = None →
   ∀ u, _find_first_data_uri wa_file ["frutiger"; "regular"; ".woff2"] (Some "font/woff2") = Some u →
        FONT_RG wa_file = Some u) ∧
  (_find_first_data_uri wa_file ["frutiger"; "-rg"; ".woff2"] (Some "font/woff2") = None →
   _find_first_data_uri wa_file ["frutiger"; "regular"; ".woff2"] (Some "font/woff2") = None →
   FONT_RG wa_file
   = _find_first_data_uri wa_file ["frutiger"; "roman"; ".woff2"] (Some "font/woff2")) ∧
  (∀ u, _find_first_data_uri wa_file ["frutiger"; "-md"; ".woff2"] (Some "font/woff2") = Some u →
        FONT_MD wa_file = Some u) ∧
  (_find_first_data_uri wa_file ["frutiger"; "-md"; ".woff2"] (Some "font/woff2") = None →
   FONT_MD wa_file
   = _find_first_data_uri wa_file ["frutiger"; "medium"; ".woff2"] (Some "font/woff2")) ∧
  LOGO_URI wa_file ≠ EmptyString ∧
  HERO_URI wa_file ≠ EmptyString.
Proof.
  unfold LOGO_URI, HERO_URI, FONT_LT, FONT_RG, FONT_MD.
  repeat apply conj.
  - intros u H. rewrite H. apply or_default_some. by apply find_first_truthy in H.
  - intros u H. rewrite H. apply or_default_some. by apply find_first_truthy in H.
  - intros u H. rewrite H. apply or_else_some. by apply find_first_truthy in H.
  - by intros ->.
  - intros u H. rewrite H. rewrite or_else_some by (by apply find_first_truthy in H).
    apply or_else_some. by apply find_first_truthy in H.
  - intros -> u H. rewrite H. simpl. apply or_else_some.
    by apply find_first_truthy in H.
  - by intros -> ->.
  - intros u H. rewrite H. apply or_else_some. by apply find_first_truthy in H.
  - by intros ->.
  - destruct (_find_first_data_uri wa_file _ None) as [u|] eqn:E; [|done].
    rewrite or_default_some by (by apply find_first_truthy in E).
    apply find_first_truthy in E. by destruct u.
  - destruct (_find_first_data_uri wa_file _ None) as [u|] eqn:E; [|done].
    rewrite or_default_some by (by apply find_first_truthy in E).
    apply find_first_truthy in E. by destruct u.
Qed.

Lemma asset_chain_order_witness :
  LOGO_URI (Plist (Some [light_font_resource; logo_resource; second_logo_resource]))
  = "data:image/svg+xml;base64,PHN2Zy8+".
Proof.
  apply (asset_chain_order
           (Plist (Some [light_font_resource; logo_resource; second_logo_resource]))).
  vm_compute. reflexivity.
Defined.

Lemma font_lookup_mime wa_file needles u :
  _find_first_data_uri wa_file needles (Some "font/woff2") = Some u →
  ∃ payload, u = "data:font/woff2;base64," +:+ payload.
Proof.
  intros (r & _ & ->)%find_first_some.
  exists (b64encode (default [] (WebResourceData r))). reflexivity.
Qed.

Lemma or_else_cases a b : Py.or_else a b = a ∨ Py.or_else a b = b.
Proof.
  unfold Py.or_else. destruct a as [u|]; [|by right].
  destruct (Py.truthy u); [by left | by right].
Qed.

(** X9: whichever archive entry a font is taken from, and whatever MIME
    type that entry declares, the font's data URI carries the type
    [font/woff2]. *)
Theorem font_mime_forced wa_file u :
  FONT_LT wa_file = Some u ∨ FONT_RG wa_file = Some u ∨
  FONT_MD wa_file = Some u ∨ UBS_ICONS wa_file = Some u →
  ∃ payload, u = "data:font/woff2;base64," +:+ payload.
Proof.
  unfold FONT_LT, FONT_RG, FONT_MD, UBS_ICONS.
  intros [H|[H|[H|H]]].
  - destruct (or_else_cases
      (_find_first_data_uri wa_file ["frutiger"; "-lt"; ".woff2"] (Some "font/woff2"))
      (_find_first_data_uri wa_file ["frutiger"; "light"; ".woff2"] (Some "font/woff2")))
      as [E|E]; rewrite E in H; by apply font_lookup_mime in H.
  - match type of H with Py.or_else ?a ?b = _ =>
      destruct (or_else_cases a b) as [E|E]; rewrite E in H end.
    + match type of H with Py.or_else ?a ?b = _ =>
        destruct (or_else_cases a b) as [E'|E']; rewrite E' in H end;
        by apply font_lookup_mime in H.
    + by apply font_lookup_mime in H.
  - match type of H with Py.or_else ?a ?b = _ =>
      destruct (or_else_cases a b) as [E|E]; rewrite E in H end;
      by apply font_lookup_mime in H.
  - by apply font_lookup_mime in H.
Qed.

Lemma font_mime_forced_witness :
  ∃ payload,
    "data:font/woff2;base64,d09GMg==" = "data:font/woff2;base64," +:+ payload.
Proof.
  apply (font_mime_forced (Plist (Some [light_font_resource; logo_resource]))).
  left. vm_compute. reflexivity.
Defined.

Lemma token_match_lower_members needles r :
  token_match needles r ↔
  ∀ m, m ∈ map Py.lower needles → infix m (Py.lower (resource_url r)).
Proof.
  unfold token_match. split.
  - intros H m (n & -> & Hn)%list_elem_of_fmap. by apply H.
  - intros H n Hn. apply H. apply list_elem_of_fmap. by exists n.
Qed.

Lemma url_matches_same_tokens needles needles' r :
  (∀ m, m ∈ map Py.lower needles ↔ m ∈ map Py.lower needles') →
  url_matches needles r = url_matches needles' r.
Proof.
  intros H.
  assert (Hiff : token_match needles r ↔ token_match needles' r).
  { rewrite !token_match_lower_members. split; intros Hm m Hin; apply Hm, H, Hin. }
  destruct (url_matches needles r) eqn:E, (url_matches needles' r) eqn:E'; try done.
  - apply url_matches_spec, Hiff, url_matches_spec in E. congruence.
  - apply url_matches_spec, Hiff, url_matches_spec in E'. congruence.
Qed.

(** X10: a lookup depends on its tokens only through the set of their
    lower-case forms: the order of the tokens, repetitions and letter case
    change nothing in the result. *)
Theorem needles_as_lowercase_set wa_file needles needles' mo :
  (∀ m, m ∈ map Py.lower needles ↔ m ∈ map Py.lower needles') →
  _find_first_data_uri wa_file needles mo
  = _find_first_data_uri wa_file needles' mo.
Proof.
  intros H. destruct wa_file as [|subs]; simpl; [done|].
  induction (default [] subs) as [|r rs IH]; simpl; [done|].
  rewrite (url_matches_same_tokens needles needles' r H), IH. done.
Qed.

Lemma needles_as_lowercase_set_witness :
  _find_first_data_uri (Plist (Some [light_font_resource; logo_resource]))
    ["UBS_"; "logo"; ".svg"] None
  = _find_first_data_uri (Plist (Some [light_font_resource; logo_resource]))
      [".SVG"; "ubs_"; "Logo"; "logo"] None.
Proof.
  apply needles_as_lowercase_set. intros m. simpl.
  rewrite !elem_of_cons. tauto.
Defined.

Lemma contains_in_empty needle :
  Py.contains needle EmptyString = true ↔ needle = EmptyString.
Proof. destruct needle; simpl; split; congruence. Qed.

Lemma lower_empty s : Py.lower s = EmptyString ↔ s = EmptyString.
Proof. destruct s; simpl; split; congruence. Qed.

(** X11: an entry with no URL (the key absent or the URL empty) matches a
    token list only when every token is the empty string; so any lookup
    with one non-empty token passes over it. *)
Theorem entry_without_url needles mo r rest :
  Py.or_default (WebResourceURL r) EmptyString = EmptyString →
  (url_matches needles r = true ↔ ∀ n, n ∈ needles → n = EmptyString) ∧
  ((∃ n, n ∈ needles ∧ n ≠ EmptyString) →
   _find_first_data_uri (Plist (Some (r :: rest))) needles mo
   = _find_first_data_uri (Plist (Some rest)) needles mo).
Proof.
  intros Hurl.
  assert (Hm : url_matches needles r = true ↔ ∀ n, n ∈ needles → n = EmptyString).
  { unfold url_matches. rewrite Hurl. simpl. rewrite forallb_forall. split.
    - intros H n Hn. apply lower_empty, contains_in_empty, H.
      by apply list_elem_of_In.
    - intros H n Hn. apply contains_in_empty, lower_empty, H.
      by apply list_elem_of_In. }
  split; [exact Hm|].
  intros (n & Hn & Hne). simpl.
  destruct (url_matches needles r) eqn:E; [|done].
  destruct Hne. by apply Hm.
Qed.

Lemma entry_without_url_witness :
  _find_first_data_uri
    (Plist (Some [Resource None (Some "image/svg+xml") None; logo_resource]))
    ["logo"] None
  = _find_first_data_uri (Plist (Some [logo_resource])) ["logo"] None.
Proof.
  apply (entry_without_url ["logo"] None
           (Resource None (Some "image/svg+xml") None) [logo_resource]).
  - reflexivity.
  - exists "logo". split; [left | discriminate].
Defined.


(** * Further properties of card rendering *)

Lemma escape_char_safe c ch :
  ch ∈ list_ascii_of_string (escape_char c) → markup_char ch = false.
Proof.
  unfold escape_char.
  destruct (Ascii.eqb c "&") eqn:E1; [|
  destruct (Ascii.eqb c "<") eqn:E2; [|
  destruct (Ascii.eqb c ">") eqn:E3; [|
  destruct (Ascii.eqb c "034") eqn:E4; [|
  destruct (Ascii.eqb c "'") eqn:E5]]]]; simpl;
    rewrite ?elem_of_cons;
    try (intros H; repeat destruct H as [->|H]; try reflexivity;
         by apply not_elem_of_nil in H).
  intros [->|H]; [|by apply not_elem_of_nil in H].
  unfold markup_char. by rewrite E2, E3, E4, E5.
Qed.

Lemma chars_app a b :
  list_ascii_of_string (a +:+ b)
  = list_ascii_of_string a ++ list_ascii_of_string b.
Proof. induction a as [|c a IH]; simpl; [done | by rewrite IH]. Qed.

(** Escaped text holds none of the characters [<], [>], the double quote
    and the single quote, and escaping a concatenation is concatenating
    the escaped parts. *)
Lemma html_escape_safe s :
  (∀ ch, ch ∈ list_ascii_of_string (html_escape s) → markup_char ch = false) ∧
  (∀ t, html_escape (s +:+ t) = html_escape s +:+ html_escape t).
Proof.
  split.
  - induction s as [|c s IH]; simpl; intros ch.
    + by intros ?%not_elem_of_nil.
    + rewrite chars_app, elem_of_app. intros [H|H].
      * by apply (escape_char_safe c).
      * by apply IH.
  - intros t. induction s as [|c s IH]; simpl; [done|].
    by rewrite IH, template_tail_assoc.
Qed.

Lemma logged_nil s : logged s [] = s.
Proof. destruct s. unfold logged. simpl. by rewrite app_nil_r. Qed.

Lemma logged_logged s e1 e2 : logged (logged s e1) e2 = logged s (e1 ++ e2).
Proof. unfold logged. simpl. by rewrite app_assoc. Qed.

Lemma writes_only_ret {A} (a : A) : writes_only (mret a) (Ok a) [].
Proof. intros s. by rewrite logged_nil. Qed.

Lemma writes_only_lift {A} (r : result A) : writes_only (lift r) r [].
Proof. intros s. by rewrite logged_nil. Qed.

Lemma writes_only_write e : writes_only (st_write e) (Ok tt) [e].
Proof. intros s. reflexivity. Qed.

Lemma appender_bind {A B} (m : St A) (k : A → St B) :
  (∃ r evs, writes_only m r evs) →
  (∀ a, ∃ r evs, writes_only (k a) r evs) →
  ∃ r evs, writes_only (m ≫= k) r evs.
Proof.
  intros (r & e1 & Hm) Hk. destruct r as [a|e].
  - destruct (Hk a) as (r & e2 & Ha). exists r, (e1 ++ e2). intros s.
    unfold mbind, St_bind. by rewrite Hm, Ha, logged_logged.
  - exists (Raise e), e1. intros s. unfold mbind, St_bind. by rewrite Hm.
Qed.

Ltac solve_appender :=
  repeat first
    [ apply appender_bind; [|intros ?]
    | by eexists _, _; apply writes_only_ret
    | by eexists _, _; apply writes_only_lift
    | by eexists _, _; apply writes_only_write ].

Section MoreRenderingFacts.

Variables account_name account_key container_name : option string.
Variable generate_blob_sas : string -> string -> string -> string -> sas_outcome.
Variable read_file : string -> option (list byte).
Variable guess_type : string -> option string.
Variable APP_CARD_CSS : string.

Local Abbreviation get_signed_url' :=
  (get_signed_url account_name account_key container_name generate_blob_sas).
Local Abbreviation sign_demo_url' :=
  (sign_demo_url account_name account_key container_name generate_blob_sas).
Local Abbreviation signing_fails' :=
  (signing_fails account_name account_key container_name generate_blob_sas).
Local Abbreviation card_locals' :=
  (card_locals account_name account_key container_name generate_blob_sas
     read_file guess_type APP_CARD_CSS).
Local Abbreviation render_app_card' :=
  (render_app_card account_name account_key container_name generate_blob_sas
     read_file guess_type APP_CARD_CSS).
Local Abbreviation _image_to_data_uri' := (_image_to_data_uri read_file guess_type).

Lemma get_signed_url_succeeds blob_name s :
  ¬ signing_fails' blob_name →
  ∃ token,
    generate_blob_sas (fmt account_name) (fmt container_name) blob_name
      (fmt account_key) = SasToken token ∧
    get_signed_url' blob_name s
    = (Ok (Some ("https://" +:+ fmt account_name +:+ ".blob.core.windows.net/"
                 +:+ fmt container_name +:+ "/" +:+ blob_name +:+ "?" +:+ token)), s).
Proof.
  unfold signing_fails, get_signed_url. intros H.
  destruct (Py.present account_name) eqn:E1; [|destruct H; auto].
  destruct (Py.present account_key) eqn:E2; [|destruct H; auto].
  destruct (Py.present container_name) eqn:E3; [|destruct H; auto].
  simpl.
  destruct (generate_blob_sas _ _ _ _) as [token|e] eqn:E.
  - by exists token.
  - destruct H. do 3 right. by exists e.
Qed.

(** X14: [get_signed_url] never raises.  When one of the three settings
    is missing or empty, or the token generator raises, it returns [None]
    and writes exactly one error to the page; otherwise it writes nothing
    and returns the blob's address on the account's host, under the
    container, followed by the token as query string. *)
Theorem get_signed_url_outcome blob_name s :
  (signing_fails' blob_name →
   ∃ msg, get_signed_url' blob_name s = (Ok None, logged s [StError msg])) ∧
  (¬ signing_fails' blob_name →
   ∃ token,
     generate_blob_sas (fmt account_name) (fmt container_name) blob_name
       (fmt account_key) = SasToken token ∧
     get_signed_url' blob_name s
     = (Ok (Some ("https://" +:+ fmt account_name +:+ ".blob.core.windows.net/"
                  +:+ fmt container_name +:+ "/" +:+ blob_name +:+ "?" +:+ token)), s)).
Proof.
  split.
  - apply get_signed_url_fails.
  - apply get_signed_url_succeeds.
Qed.

Lemma sign_demo_url_succeeds demo_url s :
  demo_url ≠ EmptyString → ¬ signing_fails' demo_url →
  ∃ token,
    generate_blob_sas (fmt account_name) (fmt container_name) demo_url
      (fmt account_key) = SasToken token ∧
    sign_demo_url' demo_url s
    = (Ok ("https://" +:+ fmt account_name +:+ ".blob.core.windows.net/"
           +:+ fmt container_name +:+ "/" +:+ demo_url +:+ "?" +:+ token), s).
Proof.
  intros Hne Hok. unfold sign_demo_url.
  destruct demo_url as [|c d]; [done|]. simpl.
  destruct (get_signed_url_succeeds (String c d) s Hok) as (token & Htok & Hurl).
  exists token. split; [exact Htok|].
  unfold mbind, St_bind. rewrite Hurl. reflexivity.
Qed.


Lemma get_signed_url_appender blob_name :
  ∃ r evs, writes_only (get_signed_url' blob_name) r evs.
Proof.
  unfold get_signed_url. destruct (_ || _); [solve_appender|].
  destruct (generate_blob_sas _ _ _ _); solve_appender.
Qed.

Lemma sign_demo_url_appender demo_url :
  ∃ r evs, writes_only (sign_demo_url' demo_url) r evs.
Proof.
  unfold sign_demo_url. destruct (Py.truthy demo_url); [|solve_appender].
  apply appender_bind; [apply get_signed_url_appender|].
  intros a. destruct (Py.present a); solve_appender.
Qed.

Lemma css_then {A} (k : unit → St A) r evs :
  writes_only (k tt) r evs →
  ∀ s, (inject_app_card_css_once APP_CARD_CSS ≫= k) s
       = (r, {| _app_card_css_done := true;
                page := page s ++ StMarkdown APP_CARD_CSS :: evs |}).
Proof.
  intros H s. unfold mbind, St_bind.
  rewrite inject_app_card_css_once_run, H. unfold logged. simpl.
  by rewrite <- app_assoc.
Qed.

Lemma card_locals_appends app variant clamp_width top_margin_px :
  ∃ r evs, ∀ s,
    card_locals' app variant clamp_width top_margin_px s
    = (r, {| _app_card_css_done := true;
             page := page s ++ StMarkdown APP_CARD_CSS :: evs |}).
Proof.
  unfold card_locals. cbv zeta.
  lazymatch goal with
  | |- context [mbind ?k (inject_app_card_css_once _)] =>
      assert (Hk : ∃ r evs, writes_only (k tt) r evs)
  end.
  { repeat first
      [ apply sign_demo_url_appender
      | apply appender_bind; [|intros ?]
      | by eexists _, _; apply writes_only_ret
      | by eexists _, _; apply writes_only_lift ]. }
  destruct Hk as (r & evs & Hk). exists r, evs. by apply css_then.
Qed.

Lemma render_app_card_frame app variant clamp_width top_margin_px :
  ∃ r evs, ∀ s,
    render_app_card' app variant clamp_width top_margin_px s
    = (r, {| _app_card_css_done := true;
             page := page s ++ StMarkdown APP_CARD_CSS :: evs |}).
Proof.
  destruct (card_locals_appends app variant clamp_width top_margin_px)
    as (r & evs & H).
  destruct r as [v|e].
  - exists (Ok tt), (evs ++ [StMarkdown (v_card_html v)]). intros s.
    unfold render_app_card, mbind, St_bind. rewrite H.
    unfold st_markdown, st_write. simpl. by rewrite <- app_assoc.
  - exists (Raise e), evs. intros s.
    unfold render_app_card, mbind, St_bind. by rewrite H.
Qed.

(** X16: [render_app_card] writes the style sheet first on every call,
    whether or not the session flag is already set, leaves the flag set,
    and otherwise only appends to the page: for any record whatever, its
    outcome and the elements it writes are the same from every session. *)
Theorem render_app_card_appends app variant clamp_width top_margin_px :
  ∃ r evs, ∀ s,
    render_app_card account_name account_key container_name generate_blob_sas
      read_file guess_type APP_CARD_CSS app variant clamp_width top_margin_px s
    = (r, {| _app_card_css_done := true;
             page := page s ++ StMarkdown APP_CARD_CSS :: evs |}).
Proof. apply render_app_card_frame. Qed.

(** X17: a record whose title is present but is not a string (a null, a
    number) makes rendering raise [AttributeError]; the style sheet has
    been written by then and no card follows it. *)
Theorem non_string_title_render (app : card) v variant clamp_width top_margin_px s :
  app !! "title" = Some v → (∀ t, v ≠ JStr t) →
  render_app_card account_name account_key container_name generate_blob_sas
      read_file guess_type APP_CARD_CSS app variant clamp_width top_margin_px s
  = (Raise AttributeError,
     {| _app_card_css_done := true;
        page := page s ++ [StMarkdown APP_CARD_CSS] |}).
Proof.
  intros Hk Hv. unfold render_app_card, card_locals, mbind, St_bind, lift.
  rewrite inject_app_card_css_once_run, Hk.
  destruct v as [| | |t| |]; try reflexivity. by destruct (Hv t).
Qed.

Lemma image_uri_absolute path u :
  _image_to_data_uri' path = Some u → absolute_or_data u = true.
Proof.
  unfold _image_to_data_uri, absolute_or_data.
  destruct (Py.truthy path); simpl; [|done].
  destruct (_ || _) eqn:E; [by intros [= <-]|].
  destruct (read_file (Py.strip path)); [|done]. by intros [= <-].
Qed.


(** For a record of strings the body returns, and these are its locals. *)
Lemma card_locals_fields app variant clamp_width top_margin_px s :
  strings_only app →
  ∃ v s',
    card_locals' app variant clamp_width top_margin_px s = (Ok v, s') ∧
    v_tags_tokens v
    = build_tags (Py.strip (str_field app "business_line" EmptyString))
        (Py.strip (str_field app "function" EmptyString)) ∧
    v_status v
    = status_label (Py.lower (Py.strip (str_field app "status" EmptyString))) ∧
    v_actions v = build_actions (v_app_url v) (v_demo_url v) (v_docs_url v) ∧
    v_img v
    = Py.or_default (_image_to_data_uri' (str_field app "image" EmptyString))
        EmptyString ∧
    v_alt v = html_escape (str_field app "alt" (v_title v)) ∧
    v_title v = html_escape (str_field app "title" "Untitled application") ∧
    v_desc v = html_escape (str_field app "description" EmptyString).
Proof.
  intros Hs.
  destruct (sign_demo_url_returns account_name account_key container_name
              generate_blob_sas
              (Py.strip (str_field app "demo_url" EmptyString))
              {| _app_card_css_done := true;
                 page := page s ++ [StMarkdown APP_CARD_CSS] |})
    as (d & s2 & Hsign).
  unfold card_locals, mbind, St_bind, lift.
  rewrite inject_app_card_css_once_run.
  rewrite !(escape_default app _ _ Hs).
  rewrite !(get_stripped_strings app _ Hs).
  rewrite (image_of_strings read_file guess_type app Hs), Hsign.
  cbv beta iota. eexists _, _. split; [reflexivity|]. simpl.
  repeat split.
Qed.


Lemma status_label_preview status_raw :
  status_label status_raw = "Preview" ↔ status_raw ∈ ["beta"; "preview"].
Proof.
  unfold status_label. rewrite !elem_of_cons.
  destruct (String.eqb status_raw "beta") eqn:E1.
  - apply String.eqb_eq in E1. simpl. split; auto.
  - destruct (String.eqb status_raw "preview") eqn:E2; simpl.
    + apply String.eqb_eq in E2. split; auto.
    + apply String.eqb_neq in E1, E2. split; [done|].
      intros [?|[?|?%not_elem_of_nil]]; done.
Qed.





End MoreRenderingFacts.


Lemma get_signed_url_outcome_witness :
  get_signed_url (Some "acct") (Some "key") (Some "media") working_sas
    "demos/copilot.mp4" fresh_session
  = (Ok (Some "https://acct.blob.core.windows.net/media/demos/copilot.mp4?sig=abc"),
     fresh_session) ∧
  ∃ msg, get_signed_url (Some "acct") None (Some "media") working_sas
           "demos/copilot.mp4" fresh_session
         = (Ok None, logged fresh_session [StError msg]).
Proof.
  pose proof (get_signed_url_outcome (Some "acct") (Some "key") (Some "media")
                working_sas "demos/copilot.mp4" fresh_session) as [_ Hok].
  pose proof (get_signed_url_outcome (Some "acct") None (Some "media")
                working_sas "demos/copilot.mp4" fresh_session) as [Hfail _].
  split.
  - destruct Hok as (token & Htok & Hurl).
    + intros [H|[H|[H|[e H]]]]; discriminate.
    + injection Htok as <-. exact Hurl.
  - apply Hfail. right. left. reflexivity.
Defined.


Lemma non_string_title_render_witness :
  render_app_card None None None failing_sas no_files no_mime_guess EmptyString
    (<["title":=JNull]> untitled_card) "tile" true 16 fresh_session
  = (Raise AttributeError,
     {| _app_card_css_done := true;
        page := page fresh_session ++ [StMarkdown EmptyString] |}).
Proof.
  assert (Hk : (<["title":=JNull]> untitled_card : card) !! "title" = Some JNull)
    by (vm_compute; reflexivity).
  assert (Hv : ∀ t, JNull ≠ JStr t) by (intros t; discriminate).
  exact (non_string_title_render None None None failing_sas no_files
           no_mime_guess EmptyString (<["title":=JNull]> untitled_card) JNull
           "tile" true 16 fresh_session Hk Hv).
Defined.






Lemma b64_uri_shape_witness :
  String.length (b64encode (str_encode "wOF2")) = 4 * ((4 + 2) / 3) ∧
  b64_digit "="%char.
Proof.
  pose proof (b64_uri_shape (str_encode "wOF2") "font/woff2") as (_ & Hlen & Hdig).
  split.
  - exact Hlen.
  - apply Hdig. apply list_elem_of_In. vm_compute. do 6 right. left. reflexivity.
Defined.

(** * Containers *)

Lemma chars_inj s t : list_ascii_of_string s = list_ascii_of_string t → s = t.
Proof.
  intros H. rewrite <- (string_of_list_ascii_of_string s),
    <- (string_of_list_ascii_of_string t). by rewrite H.
Qed.

Lemma append_inj_r s1 s2 t : s1 +:+ t = s2 +:+ t → s1 = s2.
Proof.
  intros H. apply chars_inj.
  apply (f_equal list_ascii_of_string) in H. rewrite !chars_app in H.
  by apply app_inv_tail in H.
Qed.

Lemma append_inj_l t s1 s2 : t +:+ s1 = t +:+ s2 → s1 = s2.
Proof. induction t as [|c t IH]; simpl; [done|]. intros [= H]. by apply IH. Qed.

Lemma str_of_int_inj a b : str_of_int a = str_of_int b → a = b.
Proof.
  unfold str_of_int. intros H.
  assert (Hi : Z.to_int a = Z.to_int b).
  { apply (f_equal NilEmpty.int_of_string) in H.
    rewrite !NilEmpty.isi in H. congruence. }
  rewrite <- (DecimalZ.of_to a), <- (DecimalZ.of_to b). by rewrite Hi.
Qed.

Lemma or_default_absent name d :
  Py.present name = false → Py.or_default name d = d.
Proof.
  unfold Py.present, Py.or_default. destruct name as [n|]; [|done].
  by intros ->.
Qed.

(** X23: every call of [ubs_container] raises the session counter by
    one, from zero when it is not there yet, whether or not the call
    names its container and whatever its other arguments. *)
Theorem ubs_container_counter a l :
  _ubs_seq (ubs_container_enter a l) = Some (default 0%Z (_ubs_seq l) + 1)%Z ∧
  ∀ body, (∀ l', _ubs_seq (body l') = _ubs_seq l') →
          _ubs_seq (with_ubs_container a body l)
          = Some (default 0%Z (_ubs_seq l) + 1)%Z.
Proof.
  assert (H : _ubs_seq (ubs_container_enter a l)
              = Some (default 0%Z (_ubs_seq l) + 1)%Z).
  { unfold ubs_container_enter, next_seq, _inject, lay.
    destruct (add_default_css a), (style_given (band_style a)),
      (style_given (rail_style a)), (_ubs_seq l); reflexivity. }
  split; [exact H|]. intros body Hbody.
  unfold with_ubs_container, lay. simpl. by rewrite Hbody.
Qed.

(** X24: containers without a name get keys made from the counter, so two
    such calls at different counter values never share a band key or a
    rail key; and the band key and the rail key of one call always
    differ. *)
Theorem auto_keys_distinct a1 a2 l1 l2 :
  (Py.present (arg_name a1) = false → Py.present (arg_name a2) = false →
   next_seq l1 ≠ next_seq l2 →
   fst (container_keys a1 l1) ≠ fst (container_keys a2 l2) ∧
   snd (container_keys a1 l1) ≠ snd (container_keys a2 l2)) ∧
  fst (container_keys a1 l1) ≠ snd (container_keys a1 l1) ∧
  OpenContainer (fst (container_keys a1 l1)) ∈ frames (ubs_container_enter a1 l1) ∧
  OpenContainer (snd (container_keys a1 l1)) ∈ frames (ubs_container_enter a1 l1).
Proof.
  repeat apply conj.
  - intros H1 H2 Hne. unfold container_keys. cbv zeta. simpl.
    rewrite (or_default_absent _ _ H1), (or_default_absent _ _ H2).
    split; intros H; apply Hne, str_of_int_inj;
      apply append_inj_r in H; by apply (append_inj_l "ubs_") in H.
  - unfold container_keys. simpl. intros H. by apply append_inj_l in H.
  - unfold container_keys, ubs_container_enter, _inject, lay. simpl.
    destruct (add_default_css a1), (style_given (band_style a1)),
      (style_given (rail_style a1)); simpl;
      rewrite !elem_of_app, !elem_of_cons; auto 10.
  - unfold container_keys, ubs_container_enter, _inject, lay. simpl.
    destruct (add_default_css a1), (style_given (band_style a1)),
      (style_given (rail_style a1)); simpl;
      rewrite !elem_of_app, !elem_of_cons; auto 10.
Qed.

Lemma depth_after_app e1 e2 d d' :
  depth_after e1 d = Some d' → depth_after (e1 ++ e2) d = depth_after e2 d'.
Proof.
  revert d. induction e1 as [|ev e1 IH]; intros d; simpl.
  - by intros [= ->].
  - destruct ev; [apply IH | apply IH |]. destruct d; [done | apply IH].
Qed.

Lemma ubs_container_enter_frames a l :
  ∃ evs, frames (ubs_container_enter a l) = frames l ++ evs ∧
         ∀ d, depth_after evs d = Some (S (S d)).
Proof.
  unfold ubs_container_enter, _inject, lay. cbv zeta.
  destruct (add_default_css a), (style_given (band_style a)),
    (style_given (rail_style a)); simpl;
    rewrite <- ?app_assoc; eexists; (split; [reflexivity|]); by intros d.
Qed.

(** X25: a [with ubs_container] block leaves the page balanced: it opens
    the band, then the rail inside it, and closes both after a body that
    itself closes what it opens, so that the depth of open containers
    after the block is what it was before. *)
Theorem containers_balanced a body l evs_body d :
  (∀ l', frames (body l') = frames l' ++ evs_body) →
  depth_after evs_body (S (S d)) = Some (S (S d)) →
  ∃ evs, frames (with_ubs_container a body l) = frames l ++ evs ∧
         depth_after evs d = Some d.
Proof.
  intros Hbody Hdepth.
  destruct (ubs_container_enter_frames a l) as (e1 & He1 & Hd1).
  exists (e1 ++ evs_body ++ [CloseContainer; CloseContainer]). split.
  - unfold with_ubs_container, lay. simpl. rewrite Hbody, He1.
    by rewrite <- !app_assoc.
  - rewrite (depth_after_app e1 _ d (S (S d)) (Hd1 d)).
    by rewrite (depth_after_app evs_body _ _ _ Hdepth).
Qed.

Lemma containers_balanced_witness :
  ∃ evs,
    frames (with_ubs_container default_container
              (lay (Shown (StMarkdown "All Applications"))) (Layout None []))
    = frames (Layout None []) ++ evs ∧
    depth_after evs 0 = Some 0.
Proof.
  apply (containers_balanced default_container
           (lay (Shown (StMarkdown "All Applications"))) (Layout None [])
           [Shown (StMarkdown "All Applications")] 0).
  - intros l'. reflexivity.
  - reflexivity.
Defined.

Lemma ubs_container_counter_witness :
  _ubs_seq (with_ubs_container (ContainerArgs (Some "ubs_toolbar") true (Some "grey") None None)
              (lay (Shown (StMarkdown "AI Application Marketplace")))
              (Layout (Some 4%Z) []))
  = Some 5%Z.
Proof.
  apply (proj2 (ubs_container_counter
                  (ContainerArgs (Some "ubs_toolbar") true (Some "grey") None None)
                  (Layout (Some 4%Z) []))
           (lay (Shown (StMarkdown "AI Application Marketplace")))).
  intros l'. reflexivity.
Defined.

Lemma auto_keys_distinct_witness :
  fst (container_keys default_container (Layout None []))
  ≠ fst (container_keys default_container (Layout (Some 1%Z) [])).
Proof.
  apply (proj1 (auto_keys_distinct default_container default_container
                  (Layout None []) (Layout (Some 1%Z) []))).
  - reflexivity.
  - reflexivity.
  - vm_compute. discriminate.
Defined.

(** * The card grid *)

Lemma succ_mod_3 i :
  (i mod 3 = 0 → S i mod 3 = 1) ∧
  (i mod 3 = 1 → S i mod 3 = 2) ∧
  (i mod 3 = 2 → S i mod 3 = 0).
Proof.
  replace (S i) with (i + 1) by lia.
  rewrite (Nat.Div0.add_mod i 1 3).
  repeat split; intros ->; reflexivity.
Qed.

Section GridFacts.

Variable render : card → St unit.
Variable res : card → result unit.
Variable evs : card → list st_event.
Hypothesis render_frame :
  ∀ a s, render a s
         = (res a, {| _app_card_css_done := true; page := page s ++ evs a |}).

Lemma in_column_0 a f c0 c1 c2 :
  in_column 0 (render a) (Grid f [c0; c1; c2])
  = (res a, Grid true [c0 ++ evs a; c1; c2]).
Proof. unfold in_column. simpl. by rewrite render_frame. Qed.

Lemma in_column_1 a f c0 c1 c2 :
  in_column 1 (render a) (Grid f [c0; c1; c2])
  = (res a, Grid true [c0; c1 ++ evs a; c2]).
Proof. unfold in_column. simpl. by rewrite render_frame. Qed.

Lemma in_column_2 a f c0 c1 c2 :
  in_column 2 (render a) (Grid f [c0; c1; c2])
  = (res a, Grid true [c0; c1; c2 ++ evs a]).
Proof. unfold in_column. simpl. by rewrite render_frame. Qed.

Local Abbreviation dealt j apps := (concat (map evs (every_third j apps))).

(** The loop deals the cards round-robin, starting at the column of the
    current index. *)
Lemma display_loop_deals apps :
  Forall (λ a, res a = Ok tt) apps →
  ∀ i f c0 c1 c2,
    (i mod 3 = 0 →
     display_loop render i apps (Grid f [c0; c1; c2])
     = (Ok tt, Grid (f || Py.nonempty apps)
                 [c0 ++ dealt 0 apps; c1 ++ dealt 1 apps; c2 ++ dealt 2 apps])) ∧
    (i mod 3 = 1 →
     display_loop render i apps (Grid f [c0; c1; c2])
     = (Ok tt, Grid (f || Py.nonempty apps)
                 [c0 ++ dealt 2 apps; c1 ++ dealt 0 apps; c2 ++ dealt 1 apps])) ∧
    (i mod 3 = 2 →
     display_loop render i apps (Grid f [c0; c1; c2])
     = (Ok tt, Grid (f || Py.nonempty apps)
                 [c0 ++ dealt 1 apps; c1 ++ dealt 2 apps; c2 ++ dealt 0 apps])).
Proof.
  induction 1 as [|a rest Ha _ IH]; intros i f c0 c1 c2.
  - simpl. rewrite !app_nil_r, orb_false_r. by repeat split.
  - destruct (succ_mod_3 i) as (S0 & S1 & S2).
    repeat split; intros Hi; cbn [display_loop]; rewrite Hi.
    + rewrite in_column_0, Ha.
      rewrite (proj1 (proj2 (IH (S i) true (c0 ++ evs a) c1 c2)) (S0 Hi)).
      simpl. by rewrite orb_true_r, <- app_assoc.
    + rewrite in_column_1, Ha.
      rewrite (proj2 (proj2 (IH (S i) true c0 (c1 ++ evs a) c2)) (S1 Hi)).
      simpl. by rewrite orb_true_r, <- app_assoc.
    + rewrite in_column_2, Ha.
      rewrite (proj1 (IH (S i) true c0 c1 (c2 ++ evs a)) (S2 Hi)).
      simpl. by rewrite orb_true_r, <- app_assoc.
Qed.

(** A card that raises ends the loop where it stands. *)
Lemma display_loop_stops pre a post e :
  Forall (λ a, res a = Ok tt) pre → res a = Raise e →
  ∀ i g,
    length (grid_columns g) = 3 →
    display_loop render i (pre ++ a :: post) g
    = display_loop render i (pre ++ [a]) g ∧
    fst (display_loop render i (pre ++ a :: post) g) = Raise e.
Proof.
  intros Hpre Ha. induction Hpre as [|b pre Hb _ IH]; intros i g Hlen.
  - cbn [app display_loop]. unfold in_column. rewrite render_frame, Ha. done.
  - cbn [app display_loop]. unfold in_column. rewrite render_frame, Hb.
    apply IH. simpl. by rewrite length_insert.
Qed.

End GridFacts.

Section CardGrid.

Variables account_name account_key container_name : option string.
Variable generate_blob_sas : string -> string -> string -> string -> sas_outcome.
Variable read_file : string -> option (list byte).
Variable guess_type : string -> option string.
Variable APP_CARD_CSS : string.

Local Abbreviation render_tile' :=
  (render_tile account_name account_key container_name generate_blob_sas
     read_file guess_type APP_CARD_CSS).
Local Abbreviation card_result' :=
  (card_result account_name account_key container_name generate_blob_sas
     read_file guess_type APP_CARD_CSS).
Local Abbreviation card_events' :=
  (card_events account_name account_key container_name generate_blob_sas
     read_file guess_type APP_CARD_CSS).
Local Abbreviation display_cards' :=
  (display_cards account_name account_key container_name generate_blob_sas
     read_file guess_type APP_CARD_CSS).

Lemma render_tile_frame a s :
  render_tile' a s
  = (card_result' a,
     {| _app_card_css_done := true; page := page s ++ card_events' a |}).
Proof.
  unfold card_result, card_events, render_tile.
  destruct (render_app_card_frame account_name account_key container_name
              generate_blob_sas read_file guess_type APP_CARD_CSS a "tile" true 16)
    as (r & evs & H).
  by rewrite !H.
Qed.

Lemma card_result_strings a : strings_only a → card_result' a = Ok tt.
Proof.
  intros Hs. unfold card_result, render_tile.
  destruct (card_locals_fields account_name account_key container_name
              generate_blob_sas read_file guess_type APP_CARD_CSS a "tile" true 16
              (Session false []) Hs) as (v & s' & Hv & _).
  unfold render_app_card, mbind, St_bind. by rewrite Hv.
Qed.


(** X27: a card whose rendering raises ends the display loop: the cards
    before it are on the page, the exception is the loop's outcome, and
    the cards after it are never rendered. *)
Theorem display_cards_stop pre a post e css_done :
  Forall (λ b, card_result account_name account_key container_name
                 generate_blob_sas read_file guess_type APP_CARD_CSS b = Ok tt)
    pre →
  card_result account_name account_key container_name generate_blob_sas
    read_file guess_type APP_CARD_CSS a = Raise e →
  display_cards account_name account_key container_name generate_blob_sas
    read_file guess_type APP_CARD_CSS (pre ++ a :: post) css_done
  = display_cards account_name account_key container_name generate_blob_sas
      read_file guess_type APP_CARD_CSS (pre ++ [a]) css_done ∧
  fst (display_cards account_name account_key container_name generate_blob_sas
         read_file guess_type APP_CARD_CSS (pre ++ a :: post) css_done)
  = Raise e.
Proof.
  intros Hpre Ha. unfold display_cards.
  by apply (display_loop_stops render_tile' card_result' card_events'
              render_tile_frame pre a post e Hpre Ha).
Qed.

End CardGrid.


Lemma display_cards_stop_witness :
  fst (display_cards None None None failing_sas no_files no_mime_guess EmptyString
         ([risk_summarizer] ++ <["title":=JNull]> untitled_card :: [kyc_assistant])
         false)
  = Raise AttributeError.
Proof.
  apply (display_cards_stop None None None failing_sas no_files no_mime_guess
           EmptyString [risk_summarizer] (<["title":=JNull]> untitled_card)
           [kyc_assistant] AttributeError false).
  - repeat constructor.
  - vm_compute. reflexivity.
Defined.

(** * The search icon, again *)

(** X28: the search looks only below the root: two documents whose roots
    have the same children give the same icon or the same failure,
    whatever the roots' own tags; in particular a root without children
    fails even when it is itself a path element. *)
Theorem root_is_not_searched requests_get tostring parse1 parse2 root1 root2 :
  parse1 (requests_get search_defs_url) = Ok root1 →
  parse2 (requests_get search_defs_url) = Ok root2 →
  (children_of root1 = children_of root2 →
   SEARCH_ICON_URI requests_get parse1 tostring
   = SEARCH_ICON_URI requests_get parse2 tostring) ∧
  (children_of root1 = [] →
   SEARCH_ICON_URI requests_get parse1 tostring = Raise AttributeError).
Proof.
  intros H1 H2. unfold SEARCH_ICON_URI. rewrite H1, H2. simpl.
  unfold find_svg_path, descendants. split.
  - by intros ->.
  - by intros ->.
Qed.

Lemma root_is_not_searched_witness :
  SEARCH_ICON_URI served_nothing (parses_to first_path) sample_tostring
  = Raise AttributeError.
Proof.
  apply (root_is_not_searched served_nothing sample_tostring
           (parses_to first_path) (parses_to first_path) first_path first_path
           eq_refl eq_refl).
  reflexivity.
Defined.
